(** * pydens example utilities: [examples/utils.py]

    A verification development for the plotting helpers of the example
    notebooks.  The definitions come first:

    - [Numpy]: the slice of the numeric-array library that [cart_prod] and
      the plotting helpers rely on, with arrays as a shape plus the flat
      C-ordered buffer, and [cart_prod] itself;
    - [NumpyHeap]: the same [cart_prod] over a store of array buffers, to
      speak about mutation and aliasing;
    - [Plots]: the plotting procedures as programs in a trace-and-exception
      monad whose collaborators (the model, the ground-truth function, the
      plotting library) are oracles;
    - [Stubs]: a stub model and a stub plotting library to run them on;
    - [PlotReadings]: what is read off a call and off its record of calls.

    The properties follow: of [cart_prod] ([CartProd], [HeapFacts]), of
    [plot_2d] ([Plot2d]), of [plot_pair_1d] ([PlotPair1d]), of the two
    section plots ([Sections]) and of all five procedures ([Errors]);
    then more of [cart_prod] ([CartProdMore], [HeapMore]), of [plot_2d]
    ([Plot2dMore]), of saving and showing ([SaveShow]), of the order of the
    calls ([CallOrder]), of the mesh that values are drawn over ([Mesh]) and
    of the section plots ([SectionsMore], [Layout]). *)

From Stdlib Require Import ZArith Lia.
From stdpp Require Import base tactics option list strings.

Local Open Scope string_scope.
Local Open Scope list_scope.

(** ** Python exceptions and fallible results *)

(** An exception is its class name and its message. *)
Inductive exn : Type := Exn (kind msg : string).

Inductive result (X : Type) : Type :=
  | Ok (x : X)
  | Raise (e : exn).
Arguments Ok {X} x.
Arguments Raise {X} e.

#[global] Instance result_ret : MRet result := fun _ x => Ok x.
#[global] Instance result_bind : MBind result := fun _ _ f m =>
  match m with Ok x => f x | Raise e => Raise e end.
#[global] Instance result_fmap : FMap result := fun _ _ f m =>
  match m with Ok x => Ok (f x) | Raise e => Raise e end.

#[global] Instance exn_eq_dec : EqDecision exn.
Proof. solve_decision. Defined.

Definition is_ok {X} (r : result X) : bool :=
  match r with Ok _ => true | Raise _ => false end.

(** A computation over a state [S] that returns or raises; the state
    survives an exception, as the Python heap and the record of calls made
    so far do. *)
Definition SR (S X : Type) : Type := S -> result X * S.

#[global] Instance SR_ret {S} : MRet (SR S) := fun _ x s => (Ok x, s).
#[global] Instance SR_bind {S} : MBind (SR S) := fun _ _ f m s =>
  match m s with
  | (Ok x, s') => f x s'
  | (Raise e, s') => (Raise e, s')
  end.

(** A pure fallible step. *)
Definition lift {S X} (r : result X) : SR S X := fun s => (r, s).

(** [for x in l: f(x)], collecting the values. *)
Fixpoint mapM {S X Y} (f : X -> SR S Y) (l : list X) : SR S (list Y) :=
  match l with
  | [] => mret []
  | x :: l' => y ← f x; ys ← mapM f l'; mret (y :: ys)
  end.

(** ** Arrays *)

Module Numpy.

Section Arrays.
Context {A : Type}.

(** An n-dimensional array: its shape and its elements in C order (last
    axis fastest). *)
Record ndarray : Type := NdArray { shape : list nat; data : list A }.

(** Number of elements of an array of shape [shp]. *)
Definition size_of (shp : list nat) : nat := foldr Nat.mul 1 shp.

Definition well_shaped (a : ndarray) : Prop :=
  length (data a) = size_of (shape a).

(** [stretch inner l]: every element of [l] repeated [inner] times in a
    row; [tile outer l]: the whole of [l] repeated [outer] times.  Together
    they are the C-order buffer of a one-dimensional array broadcast along
    the axes after it ([inner]) and before it ([outer]). *)
Definition stretch (inner : nat) (l : list A) : list A :=
  x ← l; replicate inner x.

Definition tile (outer : nat) (l : list A) : list A :=
  mjoin (replicate outer l).

(** [np.meshgrid] over the inputs with [indexing='ij'] and the defaults
    [sparse=False], [copy=True]: one dense array per input, all of shape [(n1, ..., nk)],
    the [i]-th one holding [arrs[i][j_i]] at index [(j1, ..., jk)]. *)
Definition meshgrid_ij (arrs : list (list A)) : list ndarray :=
  let ns := length <$> arrs in
  imap (fun i a =>
          NdArray ns (tile (size_of (take i ns))
                           (stretch (size_of (drop (S i) ns)) a)))
       arrs.

(** Columns to rows: row [f] collects the [f]-th element of every column. *)
Fixpoint transpose (cols : list (list A)) : list (list A) :=
  match cols with
  | [] => []
  | c :: cs =>
      match cs with
      | [] => (fun x => [x]) <$> c
      | _ :: _ => zip_with cons c (transpose cs)
      end
  end.

(** [np.stack(arrays, axis=-1)]: a new last axis indexes the inputs. *)
Definition np_stack_last (arrays : list ndarray) : result ndarray :=
  match arrays with
  | [] => Raise (Exn "ValueError" "need at least one array to stack")
  | a0 :: _ =>
      if forallb (fun a => bool_decide (shape a = shape a0)) arrays
      then Ok (NdArray (shape a0 ++ [length arrays])
                       (mjoin (transpose (data <$> arrays))))
      else Raise (Exn "ValueError" "all input arrays must have the same shape")
  end.

(** [a.reshape(-1, ncols)]: the buffer is kept, the row count inferred. *)
Definition reshape_rows (ncols : nat) (a : ndarray) : result ndarray :=
  if (ncols =? 0)%nat
  then Raise (Exn "ValueError" "cannot reshape array into shape (-1, 0)")
  else if (length (data a) mod ncols =? 0)%nat
  then Ok (NdArray [length (data a) / ncols; ncols] (data a))
  else Raise (Exn "ValueError" "cannot reshape array: size not divisible").

(** [cart_prod], lines 95-99; [arrs] is the tuple of positional arguments. *)
Definition cart_prod (arrs : list (list A)) : result ndarray :=
  let grids := meshgrid_ij arrs in
  stacked ← np_stack_last grids;
  reshape_rows (length arrs) stacked.

(** The rows of a two-dimensional array (no rows for any other rank). *)
Definition rows (a : ndarray) : list (list A) :=
  match shape a with
  | [r; c] => (fun i => take c (drop (i * c) (data a))) <$> seq 0 r
  | _ => []
  end.

(** What the specification describes: nested loops over the inputs, the
    first input in the outermost loop. *)
Fixpoint nested_loops (arrs : list (list A)) : list (list A) :=
  match arrs with
  | [] => [[]]
  | a :: rest => x ← a; cons x <$> nested_loops rest
  end.

(** [a.reshape(-1, 1)] of a one-dimensional sequence: a single column. *)
Definition column (l : list A) : ndarray := NdArray [length l; 1] l.

(** [a.reshape(-1)]: the buffer read as one dimension. *)
Definition flatten (a : ndarray) : ndarray :=
  NdArray [length (data a)] (data a).

(** [a.reshape(n, m)] for integers [n], [m]; [-1] stands for the one
    dimension to infer. *)
Definition reshape2 (a : ndarray) (n m : Z) : result ndarray :=
  let size := Z.of_nat (length (data a)) in
  let bad := Raise (Exn "ValueError" "cannot reshape array into this shape") in
  if ((n <? -1) || (m <? -1))%Z
  then Raise (Exn "ValueError" "negative dimensions not allowed")
  else if ((n =? -1) && (m =? -1))%Z
  then Raise (Exn "ValueError" "can only specify one unknown dimension")
  else if (n =? -1)%Z
  then if ((0 <? m) && (size mod m =? 0))%Z
       then Ok (NdArray [Z.to_nat (size / m); Z.to_nat m] (data a)) else bad
  else if (m =? -1)%Z
  then if ((0 <? n) && (size mod n =? 0))%Z
       then Ok (NdArray [Z.to_nat n; Z.to_nat (size / n)] (data a)) else bad
  else if (n * m =? size)%Z
  then Ok (NdArray [Z.to_nat n; Z.to_nat m] (data a)) else bad.

(** [a.shape[0]] and [len(a)]. *)
Definition shape0 (a : ndarray) : result nat :=
  match shape a with
  | n :: _ => Ok n
  | [] => Raise (Exn "IndexError" "tuple index out of range")
  end.

Definition len (a : ndarray) : result nat :=
  match shape a with
  | n :: _ => Ok n
  | [] => Raise (Exn "TypeError" "len() of unsized object")
  end.

(** [np.concatenate([a, b], axis=1)] of two-dimensional arrays: row [i]
    of the result is row [i] of [a] followed by row [i] of [b]. *)
Definition concatenate_axis1 (a b : ndarray) : result ndarray :=
  match shape a, shape b with
  | [r1; c1], [r2; c2] =>
      if (r1 =? r2)%nat
      then Ok (NdArray [r1; c1 + c2] (mjoin (zip_with app (rows a) (rows b))))
      else Raise (Exn "ValueError"
                      "all the input array dimensions except for the concatenation axis must match exactly")
  | _, _ =>
      Raise (Exn "ValueError" "concatenate along axis 1 needs two-dimensional arrays")
  end.

(** [a[:, c]]: entry [c] along the second axis, Python index rules. *)
Definition select_axis1 (a : ndarray) (c : Z) : result ndarray :=
  match shape a with
  | r :: k :: rest =>
      let idx := (if c <? 0 then c + Z.of_nat k else c)%Z in
      if ((0 <=? idx) && (idx <? Z.of_nat k))%Z
      then
        let w := size_of rest in
        Ok (NdArray (r :: rest)
              (mjoin ((fun i => take w (drop ((i * k + Z.to_nat idx) * w) (data a)))
                        <$> seq 0 r)))
      else Raise (Exn "IndexError" "index is out of bounds for axis 1")
  | _ => Raise (Exn "IndexError" "too many indices for array")
  end.

(** [np.meshgrid(xs, ys)] with the default ["xy"] indexing: two arrays of
    shape [(len(ys), len(xs))]. *)
Definition meshgrid_xy (xs ys : ndarray) : ndarray * ndarray :=
  let nx := length (data xs) in
  let ny := length (data ys) in
  (NdArray [ny; nx] (tile ny (data xs)),
   NdArray [ny; nx] (stretch nx (data ys))).

(** Elementwise image of an array. *)
Definition amap (f : A -> A) (a : ndarray) : ndarray :=
  NdArray (shape a) (f <$> data a).

(** An array of shape [(n, 1)] filled with [x]. *)
Definition full_col (n : nat) (x : A) : ndarray :=
  NdArray [n; 1] (replicate n x).

(** A local variable that an earlier branch may have left unassigned. *)
Definition local {X} (name : string) (v : option X) : result X :=
  match v with
  | Some x => Ok x
  | None => Raise (Exn "UnboundLocalError" name)
  end.

End Arrays.

Arguments ndarray A : clear implicits.

End Numpy.

(** ** Arrays in a store

    Array objects own buffers that live in a store; an array value is a
    reference to a buffer together with the shape it is read with.  A
    reshape returns a view: a new reference to the same buffer. *)

Module NumpyHeap.
Import Numpy.

(** The buffers allocated so far; a buffer's address is its position. *)
Abbreviation store A := (list (list A)).

Record aref : Type := ARef { buf : nat; ashape : list nat }.

Section Store.
Context {A : Type}.

(** Computations on the store. *)
Local Abbreviation H := (SR (store A)).

Definition h_read (r : aref) : H (list A) := fun h =>
  match h !! buf r with
  | Some d => (Ok d, h)
  | None => (Raise (Exn "SystemError" "no such buffer"), h)
  end.

Definition h_alloc (a : ndarray A) : H aref := fun h =>
  (Ok (ARef (length h) (shape a)), h ++ [data a]).

(** The array a reference denotes in a store. *)
Definition h_fetch (r : aref) : H (ndarray A) :=
  d ← h_read r; mret (NdArray (ashape r) d).

(** [np.meshgrid] with [copy=True]: the inputs are read, every grid is a
    newly allocated array. *)
Definition h_meshgrid_ij (arrs : list aref) : H (list aref) :=
  ds ← mapM h_read arrs;
  mapM h_alloc (meshgrid_ij ds).

(** [np.stack]: the inputs are read, the result is a new array. *)
Definition h_stack_last (arrays : list aref) : H aref :=
  as_ ← mapM h_fetch arrays;
  stacked ← lift (np_stack_last as_);
  h_alloc stacked.

(** [a.reshape(-1, ncols)] of a contiguous array: a view on its buffer. *)
Definition h_reshape_rows (ncols : nat) (r : aref) : H aref :=
  a ← h_fetch r;
  v ← lift (reshape_rows ncols a);
  mret (ARef (buf r) (shape v)).

(** [cart_prod], lines 95-99, on array objects. *)
Definition h_cart_prod (arrs : list aref) : H aref :=
  grids ← h_meshgrid_ij arrs;
  stacked ← h_stack_last grids;
  h_reshape_rows (length arrs) stacked.

(** What the caller observes of a call: the exception, or the array the
    returned reference denotes in the final store. *)
Definition observe (run : result aref * store A) : result (ndarray A) :=
  match run with
  | (Ok r, h') =>
      match h' !! buf r with
      | Some d => Ok (NdArray (ashape r) d)
      | None => Raise (Exn "SystemError" "no such buffer")
      end
  | (Raise e, _) => Raise e
  end.

(** The one-dimensional inputs [ds] sit in the store at [arrs]. *)
Definition holds (h : store A) (arrs : list aref) (ds : list (list A)) : Prop :=
  Forall2 (fun r d => h !! buf r = Some d) arrs ds.

(** Reference [r] denotes the array [g] in [h]. *)
Definition denotes (h : store A) (r : aref) (g : ndarray A) : Prop :=
  h !! buf r = Some (data g) /\ ashape r = shape g.

(** The references [mapM h_alloc] hands out for [gs] from address [n]. *)
Definition fresh_refs (n : nat) (gs : list (ndarray A)) : list aref :=
  imap (fun i g => ARef (n + i) (shape g)) gs.

End Store.

End NumpyHeap.

(** ** The plotting procedures

    Floating-point numbers stay abstract: the procedures only move them
    around, except for a few operations that are taken as an interface. *)

Module Plots.
Import Numpy.

Class Scalar (F : Type) : Type := {
  (** the decimal literal [m * 10^e] *)
  fdec : Z -> Z -> F;
  fadd : F -> F -> F;
  fsub : F -> F -> F;
  fmul : F -> F -> F;
  (** [flin start stop num i]: sample [i] of [np.linspace(start, stop, num)] *)
  flin : F -> F -> nat -> nat -> F;
  (** ['%.2f' % x] *)
  ffmt2 : F -> string;
  (** multiplying by [1.0] changes nothing *)
  fmul_one : forall x, fmul x (fdec 1 0) = x;
}.

Section Procedures.
Context {F : Type} `{Scalar F}.

(** [np.linspace(start, stop, num)]. *)
Definition np_linspace (start stop : F) (num : Z) : result (ndarray F) :=
  if (num <? 0)%Z
  then Raise (Exn "ValueError" "Number of samples must be non-negative")
  else let n := Z.to_nat num in
       Ok (NdArray [n] (flin start stop n <$> seq 0 n)).

(** [np.ones((n, 1))] and [t * a]. *)
Definition np_ones_col (n : nat) : ndarray F := full_col n (fdec 1 0).

Definition scale (t : F) (a : ndarray F) : ndarray F := amap (fmul t) a.

(** Python values that cross the boundary to the plotting library. *)
Inductive value : Type :=
  | VNone
  | VBool (b : bool)
  | VInt (z : Z)
  | VFloat (x : F)
  | VStr (s : string)
  | VArr (a : ndarray F)
  | VObj (id : nat)                  (* a figure, an axes object, ... *)
  | VPair (a b : value)
  | VFontsize (pt : Z)               (* the dict [{'fontsize': pt}] *)
  | VKw (name : string) (v : value). (* a keyword argument [name=v] *)

(** The calls a procedure makes to its collaborators, in order. *)
Inductive event : Type :=
  | EvSolve (points : ndarray F) (fetches : option value)
      (* [model.solve(points)] or [model.solve(points, fetches=f)] *)
  | EvSolution (points : ndarray F)
      (* [solution(points)] *)
  | EvPlt (fn : string) (args : list value)
      (* [plt.fn(args)] *)
  | EvMethod (obj : value) (meth : string) (args : list value).
      (* [obj.meth(args)] on an object of the plotting library *)

(** The collaborators: each call may return or raise, and may depend on
    everything that was called before. *)
Record env : Type := Env {
  model_solve : list event -> ndarray F -> option value -> result (ndarray F);
  solution_fn : list event -> ndarray F -> result (ndarray F);
  plt_call : list event -> string -> list value -> result value;
  method_call : list event -> value -> string -> list value -> result value;
}.

Local Abbreviation trace := (list event).
Local Abbreviation M := (SR (list event)).

Section Calls.
Variable E : env.

Definition solve (points : ndarray F) (fetches : option value)
  : M (ndarray F) :=
  fun tr => (model_solve E tr points fetches, tr ++ [EvSolve points fetches]).

Definition solution (points : ndarray F) : M (ndarray F) :=
  fun tr => (solution_fn E tr points, tr ++ [EvSolution points]).

Definition plt (fn : string) (args : list value) : M value :=
  fun tr => (plt_call E tr fn args, tr ++ [EvPlt fn args]).

Definition method (obj : value) (meth : string) (args : list value)
  : M value :=
  fun tr => (method_call E tr obj meth args, tr ++ [EvMethod obj meth args]).

(** [for x in l: body(x)]. *)
Definition forM_ {X} (l : list X) (body : X -> M unit) : M unit :=
  mapM body l;; mret tt.

Definition enumerate {X} (l : list X) : list (nat * X) :=
  zip (seq 0 (length l)) l.

(** [if c: m], and a call whose value is dropped. *)
Definition when (c : bool) (m : M unit) : M unit :=
  if c then m else mret tt.

Definition do_ {X} (m : M X) : M unit := m;; mret tt.

(** [if save: plt.savefig(path, dpi=300)]. *)
Definition savefig (save : bool) (path : string) : M unit :=
  when save (do_ (plt "savefig" [VStr path; VKw "dpi" (VInt 300)])).

(** *** [plot_loss], lines 7-14 *)

Definition plot_loss (loss : ndarray F) (color : string) : M unit :=
  plt "plot" [VArr loss; VKw "c" (VStr color)];;
  plt "xlabel" [VStr "Iteration number"; VKw "fontdict" (VFontsize 15)];;
  plt "ylabel" [VStr "Loss"; VKw "fontdict" (VFontsize 15)];;
  plt "title" [VStr "Model loss"; VKw "fontdict" (VFontsize 19)];;
  do_ (plt "show" []).

(** *** [plot_pair_1d], lines 17-44 *)

Record pair_1d_args : Type := Pair1dArgs {
  p1_points : option (ndarray F);
  p1_plot_coord : option Z;
  p1_xlabel : string;
  p1_ylabel : string;
  p1_confidence : option F;
  p1_alpha : F;
  p1_title : string;
  p1_loc : Z;
  p1_grid : bool;
  p1_save : bool;
  p1_path : string;
}.

(** The evaluation points: the caller's, or 200 samples of [0, 1] as a
    column (line 24). *)
Definition pair_1d_points (a : pair_1d_args) : result (ndarray F) :=
  match p1_points a with
  | Some p => Ok p
  | None => l ← np_linspace (fdec 0 0) (fdec 1 0) 200; reshape_rows 1 l
  end.

(** The coordinates handed to [solution] and to the plot (line 26). *)
Definition pair_1d_coord (a : pair_1d_args) (points : ndarray F)
  : result (ndarray F) :=
  match p1_plot_coord a with
  | None => Ok points
  | Some c => select_axis1 points c
  end.

(** The arguments of [plt.fill_between] on line 36: the band from
    [true - confidence] to [true + confidence]. *)
Definition band_args (a : pair_1d_args) (points true_ : ndarray F)
    (confidence : F) : list value :=
  [VArr (flatten points);
   VArr (amap (fun y => fsub y confidence) true_);
   VArr (amap (fun y => fadd y confidence) true_);
   VKw "alpha" (VFloat (p1_alpha a)); VKw "label" (VStr "Confidence")].

Definition plot_pair_1d (a : pair_1d_args) : M unit :=
  points ← lift (pair_1d_points a);
  approxs ← solve points None;
  points ← lift (pair_1d_coord a points);
  sol ← solution points;
  let true_ := flatten sol in
  plt "plot" [VArr points; VArr true_; VStr "b"; VKw "linewidth" (VInt 4);
              VKw "label" (VStr "True solution");
              VKw "alpha" (VFloat (fadd (p1_alpha a) (fdec 15 (-2))))];;
  plt "plot" [VArr points; VArr approxs; VStr "r--"; VKw "linewidth" (VInt 5);
              VKw "label" (VStr "Network approximation")];;
  plt "xlabel" [VStr (p1_xlabel a); VKw "fontdict" (VFontsize 16)];;
  plt "ylabel" [VStr (p1_ylabel a); VKw "fontdict" (VFontsize 16)];;
  plt "title" [VStr (p1_title a); VKw "fontdict" (VFontsize 17)];;
  match p1_confidence a with
  | Some confidence =>
      do_ (plt "fill_between" (band_args a points true_ confidence))
  | None => mret tt
  end;;
  plt "legend" [VKw "loc" (VInt (p1_loc a))];;
  plt "grid" [VBool (p1_grid a)];;
  savefig (p1_save a) (p1_path a);;
  do_ (plt "show" []).

(** *** [plot_2d], lines 47-92 *)

Record plot_2d_args : Type := Plot2dArgs {
  p2_mode : string;
  p2_fetches : value;
  p2_grid : option (ndarray F);
  p2_cmap : string;
  p2_title : string;
  p2_xlim : F * F;
  p2_ylim : F * F;
  p2_num_points : option Z;
  p2_save : bool;
  p2_path : string;
}.

(** [num_points or d]: [None] and [0] are both falsy. *)
Definition or_default (num_points : option Z) (d : Z) : Z :=
  match num_points with
  | Some n => if (n =? 0)%Z then d else n
  | None => d
  end.

(** [cart_prod] of [n] samples of [xlim] and [n] samples of [ylim]. *)
Definition square_grid (xlim ylim : F * F) (n : Z) : result (ndarray F) :=
  xs ← np_linspace xlim.1 xlim.2 n;
  ys ← np_linspace ylim.1 ylim.2 n;
  cart_prod [data xs; data ys].

(** Lines 53-55: the grid that is solved on and the value of the local
    [num_points] afterwards. *)
Definition imshow_grid (a : plot_2d_args) : result (ndarray F * option Z) :=
  match p2_grid a with
  | Some g => Ok (g, p2_num_points a)
  | None =>
      let num_points := or_default (p2_num_points a) 80 in
      grid ← square_grid (p2_xlim a) (p2_ylim a) num_points;
      Ok (grid, Some num_points)
  end.

(** The locals that only the [grid is None] branch of lines 62-67 assigns. *)
Record mesh_locals : Type := MeshLocals {
  l_xs : option (ndarray F);
  l_ys : option (ndarray F);
  l_xs_ : option (ndarray F);
  l_ys_ : option (ndarray F);
}.

Definition contour_grid (a : plot_2d_args)
  : result (ndarray F * mesh_locals) :=
  match p2_grid a with
  | None =>
      let num_points :=
        or_default (p2_num_points a)
                   (if bool_decide (p2_mode a = "contourf") then 80 else 20) in
      xs ← np_linspace (p2_xlim a).1 (p2_xlim a).2 num_points;
      ys ← np_linspace (p2_ylim a).1 (p2_ylim a).2 num_points;
      let '(xs_, ys_) := meshgrid_xy xs ys in
      grid ← cart_prod [data xs; data ys];
      Ok (grid, MeshLocals (Some xs) (Some ys) (Some xs_) (Some ys_))
  | Some g => Ok (g, MeshLocals None None None None)
  end.

Definition surface_kwargs (cmap : string) : list value :=
  [VKw "rstride" (VInt 1); VKw "cstride" (VInt 1); VKw "cmap" (VStr cmap);
   VKw "edgecolor" (VStr "none")].

Definition plot_2d (a : plot_2d_args) : M unit :=
  let mode := p2_mode a in
  (if bool_decide (mode = "imshow") then
     '(grid, num_points) ← lift (imshow_grid a);
     (* calculate and plot approximate solution *)
     approxs ← solve grid (Some (p2_fetches a));
     img ← lift match num_points with
                | Some n => reshape2 approxs n n
                | None => Raise (Exn "TypeError"
                                     "'NoneType' object cannot be interpreted as an integer")
                end;
     do_ (plt "imshow" [VArr img; VKw "cmap" (VStr (p2_cmap a))])
   else if bool_decide (mode ∈ ["contourf"; "3d_view"]) then
     (* calculate approximate solution *)
     '(grid, locals) ← lift (contour_grid a);
     sol ← solve grid None;
     xs ← lift (local "xs" (l_xs locals));
     nx ← lift (len xs);
     ys ← lift (local "ys" (l_ys locals));
     ny ← lift (len ys);
     zs_ ← lift (reshape2 sol (Z.of_nat nx) (Z.of_nat ny));
     (* plot approximate solution *)
     if bool_decide (mode = "contourf") then
       xs_ ← lift (local "xs_" (l_xs_ locals));
       ys_ ← lift (local "ys_" (l_ys_ locals));
       do_ (plt "contourf" [VArr xs_; VArr ys_; VArr zs_;
                            VKw "cmap" (VStr (p2_cmap a))])
     else
       fig ← plt "figure" [];
       axis ← method fig "gca" [VKw "projection" (VStr "3d")];
       xs_ ← lift (local "xs_" (l_xs_ locals));
       ys_ ← lift (local "ys_" (l_ys_ locals));
       method axis "plot_surface"
              ([VArr xs_; VArr ys_; VArr zs_] ++ surface_kwargs (p2_cmap a));;
       method axis "set_title" [VStr (p2_title a); VKw "size" (VInt 17)];;
       method axis "set_xlabel" [VStr "$x$"; VKw "fontdict" (VFontsize 14)];;
       do_ (method axis "set_ylabel" [VStr "$y$"; VKw "fontdict" (VFontsize 14)])
   else mret tt);;
  when (bool_decide (mode ∈ ["imshow"; "contourf"]))
       (plt "title" [VStr (p2_title a); VKw "fontdict" (VFontsize 17)];;
        do_ (plt "colorbar" []));;
  savefig (p2_save a) (p2_path a);;
  when (bool_decide (mode ∈ ["3d_view"; "contourf"]))
       (do_ (plt "show" [])).

(** *** [plot_sections_2d], lines 102-128 *)

Record sections_2d_args : Type := Sections2dArgs {
  s2_timestamps : list F;
  s2_grid_size : Z * Z;
  s2_points : option (ndarray F);
  s2_fetches : value;
  s2_xlim : F * F;
  s2_ylim : F * F;
  s2_title : string;
  s2_save : bool;
  s2_path : string;
}.

(** The spatial points: the caller's, or 100 samples of [0, 1] as a column
    (line 109). *)
Definition sections_2d_points (a : sections_2d_args) : result (ndarray F) :=
  match s2_points a with
  | Some p => Ok p
  | None => l ← np_linspace (fdec 0 0) (fdec 1 0) 100; reshape_rows 1 l
  end.

(** [np.concatenate([grid, t * np.ones((n, 1))], axis=1)]: one more column,
    all [t]. *)
Definition with_time (grid : ndarray F) (n : nat) (t : F)
  : result (ndarray F) :=
  concatenate_axis1 grid (scale t (np_ones_col n)).

(** Line 115. *)
Definition section_points_2d (points : ndarray F) (t : F)
  : result (ndarray F) :=
  col ← reshape_rows 1 points;
  n ← shape0 points;
  with_time col n t.

(** [i // d] and [i % d]. *)
Definition divmod (i d : Z) : result (Z * Z) :=
  if (d =? 0)%Z
  then Raise (Exn "ZeroDivisionError" "integer division or modulo by zero")
  else Ok ((i / d)%Z, (i mod d)%Z).

Definition time_title (t : F) : string := "$t=" +:+ ffmt2 t +:+ "$".

(** [fig, axes = ...]. *)
Definition unpack2 (v : value) : result (value * value) :=
  match v with
  | VPair a b => Ok (a, b)
  | _ => Raise (Exn "TypeError" "cannot unpack non-iterable object")
  end.

(** The body of the loop, lines 115-119. *)
Definition section_2d (a : sections_2d_args) (axes : value)
    (points : ndarray F) (it : nat * F) : M unit :=
  let '(i, t_) := it in
  points_ ← lift (section_points_2d points t_);
  '(wx, wy) ← lift (divmod (Z.of_nat i) (s2_grid_size a).2);
  ax ← method axes "__getitem__" [VInt wx; VInt wy];
  sol ← solve points_ (Some (s2_fetches a));
  method ax "plot" [VArr (flatten points); VArr sol];;
  ax ← method axes "__getitem__" [VInt wx; VInt wy];
  method ax "set_ylim" [VFloat (s2_ylim a).1; VFloat (s2_ylim a).2];;
  ax ← method axes "__getitem__" [VInt wx; VInt wy];
  do_ (method ax "set_title" [VStr (time_title t_); VKw "size" (VInt 22)]).

Definition plot_sections_2d (a : sections_2d_args) : M unit :=
  (* set up grid of points *)
  points ← lift (sections_2d_points a);
  let gs := s2_grid_size a in
  r ← plt "subplots" [VInt gs.1; VInt gs.2;
                      VKw "figsize" (VPair (VInt (5 * gs.2)) (VInt 5))];
  '(fig, axes) ← lift (unpack2 r);
  (* loop over and plot time-sections *)
  forM_ (enumerate (s2_timestamps a)) (section_2d a axes points);;
  (* add title, save if needed and show the plot *)
  method fig "tight_layout" [];;
  method fig "suptitle" [VStr (s2_title a); VKw "size" (VInt 27)];;
  method fig "subplots_adjust" [VKw "top" (VFloat (fdec 82 (-2)))];;
  savefig (s2_save a) (s2_path a);;
  do_ (plt "show" []).

(** *** [plot_sections_3d], lines 131-179 *)

Record sections_3d_args : Type := Sections3dArgs {
  s3_timestamps : list F;
  s3_grid_size : Z * Z;
  s3_mode : string;
  s3_fetches : value;
  s3_xlim : F * F;
  s3_ylim : F * F;
  s3_zlim : F * F;
  s3_num_points : option Z;
  s3_title : string;
  s3_cmap : string;
  s3_save : bool;
  s3_path : string;
}.

(** Lines 139-143. *)
Definition sections_3d_num_points (a : sections_3d_args) : Z :=
  match s3_num_points a with
  | Some n => n
  | None =>
      if bool_decide (s3_mode a = "imshow") || bool_decide (s3_mode a = "contourf")
      then 80 else 20
  end.

(** Line 153. *)
Definition section_points_3d (grid : ndarray F) (t : F)
  : result (ndarray F) :=
  n ← shape0 grid;
  with_time grid n t.

(** The body of the loop, lines 153-173. *)
Definition section_3d (a : sections_3d_args) (fig : value)
    (xs ys grid xs_ ys_ : ndarray F) (it : nat * F) : M unit :=
  let '(i, t_) := it in
  let mode := s3_mode a in
  let gs := s3_grid_size a in
  grid_ ← lift (section_points_3d grid t_);
  (* add new canvas *)
  ax ← (if bool_decide (mode = "3d_view")
        then method fig "add_subplot"
               [VInt gs.1; VInt gs.2; VInt (Z.of_nat i + 1);
                VKw "projection" (VStr "3d")]
        else method fig "add_subplot"
               [VInt gs.1; VInt gs.2; VInt (Z.of_nat i + 1)]);
  (* calculate and plot approximate solution for a section *)
  sol ← solve grid_ None;
  nx ← lift (len xs);
  ny ← lift (len ys);
  zs_ ← lift (reshape2 sol (Z.of_nat nx) (Z.of_nat ny));
  (if bool_decide (mode = "imshow") then
     do_ (method ax "imshow" [VArr zs_; VKw "cmap" (VStr (s3_cmap a))])
   else if bool_decide (mode = "contourf") then
     do_ (method ax "contourf" [VArr xs_; VArr ys_; VArr zs_;
                                VKw "cmap" (VStr (s3_cmap a))])
   else if bool_decide (mode = "3d_view") then
     method ax "plot_surface"
            ([VArr xs_; VArr ys_; VArr zs_] ++ surface_kwargs (s3_cmap a));;
     do_ (method ax "set_zlim" [VFloat (s3_zlim a).1; VFloat (s3_zlim a).2])
   else mret tt);;
  method ax "set_title" [VStr (time_title t_); VKw "size" (VInt 17)];;
  method ax "set_xlabel" [VStr "$x$"; VKw "fontdict" (VFontsize 14)];;
  do_ (method ax "set_ylabel" [VStr "$y$"; VKw "fontdict" (VFontsize 14)]).

(** Lines 145-148: the samples, the shared spatial grid and the mesh. *)
Definition sections_3d_grid (a : sections_3d_args)
  : result (ndarray F * ndarray F * ndarray F * (ndarray F * ndarray F)) :=
  let num_points := sections_3d_num_points a in
  xs ← np_linspace (s3_xlim a).1 (s3_xlim a).2 num_points;
  ys ← np_linspace (s3_ylim a).1 (s3_ylim a).2 num_points;
  grid ← cart_prod [data xs; data ys];
  Ok (xs, ys, grid, meshgrid_xy xs ys).

Definition plot_sections_3d (a : sections_3d_args) : M unit :=
  (* set up grid of points *)
  '(xs, ys, grid, (xs_, ys_)) ← lift (sections_3d_grid a);
  (* loop over and plot time-sections *)
  let gs := s3_grid_size a in
  fig ← plt "figure" [VKw "figsize" (VPair (VInt (gs.1 * 7)) (VInt (gs.2 * 3)))];
  forM_ (enumerate (s3_timestamps a)) (section_3d a fig xs ys grid xs_ ys_);;
  (* add title, save if needed and show the plot *)
  method fig "suptitle" [VStr (s3_title a); VKw "size" (VInt 20)];;
  savefig (s3_save a) (s3_path a);;
  do_ (plt "show" []).

(** *** The five plotting procedures as one family *)

Inductive plot_call : Type :=
  | PlotLoss (loss : ndarray F) (color : string)
  | PlotPair1d (a : pair_1d_args)
  | Plot2d (a : plot_2d_args)
  | PlotSections2d (a : sections_2d_args)
  | PlotSections3d (a : sections_3d_args).

Definition run_plot (c : plot_call) : M unit :=
  match c with
  | PlotLoss loss color => plot_loss loss color
  | PlotPair1d a => plot_pair_1d a
  | Plot2d a => plot_2d a
  | PlotSections2d a => plot_sections_2d a
  | PlotSections3d a => plot_sections_3d a
  end.

End Calls.

(** *** Reading a record of calls *)

(** The calls of [model.solve] in a trace, in order. *)
Definition solve_calls (tr : trace) : list (ndarray F * option value) :=
  omap (fun ev => match ev with
                  | EvSolve p f => Some (p, f)
                  | _ => None
                  end) tr.


(** A grid with one more column that holds [t] in every row. *)
Definition time_section (grid : ndarray F) (t : F) : result (ndarray F) :=
  n ← shape0 grid;
  concatenate_axis1 grid (full_col n t).

Definition is_library_call (ev : event) : bool :=
  match ev with
  | EvPlt _ _ | EvMethod _ _ _ => true
  | _ => false
  end.

(** The exception, if any, that the collaborator raised on call [ev] made
    after the calls [pre]. *)
Definition error_of {X} (r : result X) : option exn :=
  match r with Ok _ => None | Raise e => Some e end.

Definition failure (E : env) (pre : trace) (ev : event) : option exn :=
  match ev with
  | EvSolve p f => error_of (model_solve E pre p f)
  | EvSolution p => error_of (solution_fn E pre p)
  | EvPlt fn args => error_of (plt_call E pre fn args)
  | EvMethod o m args => error_of (method_call E pre o m args)
  end.

(** *** What the procedures are shown to do *)

(** A run from [tr0] to [tr1] with result [r] hides no failure: a
    collaborator call that raised is the last call of the run and its
    exception is the result. *)
Definition propagates (E : env) {X} (tr0 : trace) (r : result X)
    (tr1 : trace) : Prop :=
  exists ext,
    tr1 = tr0 ++ ext
    /\ forall pre ev post e,
         ext = pre ++ ev :: post ->
         failure E (tr0 ++ pre) ev = Some e ->
         post = [] /\ r = Raise e.

Definition propagating (E : env) {X} (m : M X) : Prop :=
  forall tr0 r tr1, m tr0 = (r, tr1) -> propagates E tr0 r tr1.

(** Every call the computation makes satisfies [Q]. *)
Definition emits (Q : event -> Prop) {X} (m : M X) : Prop :=
  forall tr0 r tr1,
    m tr0 = (r, tr1) -> exists ext, tr1 = tr0 ++ ext /\ Forall Q ext.

(** One round of a loop either stops before it reaches [model.solve],
    and then it raises, or it calls [model.solve] once, as [good] says. *)
Definition one_solve_step {X} (body : X -> M unit)
    (good : X -> ndarray F * option value -> Prop) : Prop :=
  forall x tr0 r tr1,
    body x tr0 = (r, tr1) ->
    (solve_calls tr1 = solve_calls tr0 /\ r <> Ok tt)
    \/ (exists c, solve_calls tr1 = solve_calls tr0 ++ [c] /\ good x c).

(** [grid] is the Cartesian grid of the samples [xs] and [ys]. *)
Definition grid_rows_of (xs ys grid : ndarray F) : Prop :=
  rows grid = nested_loops [data xs; data ys].

(** A call of [model.solve] for the time [t]: on [grid] with one more
    column that holds [t] in every row, and with [fetches]. *)
Definition section_call (grid : ndarray F) (fetches : option value)
    (t : F) (call : ndarray F * option value) : Prop :=
  time_section grid t = Ok call.1
  /\ rows call.1 = (fun row => row ++ [t]) <$> rows grid
  /\ call.2 = fetches.


End Procedures.

Arguments env F : clear implicits.
Arguments value F : clear implicits.
Arguments event F : clear implicits.
Arguments pair_1d_args F : clear implicits.
Arguments plot_2d_args F : clear implicits.
Arguments sections_2d_args F : clear implicits.
Arguments sections_3d_args F : clear implicits.
Arguments plot_call F : clear implicits.

Abbreviation trace F := (list (event F)).
Abbreviation M F := (SR (list (event F))).

End Plots.

(** ** A stub model and a stub plotting library

    Integers stand in for floats, [solve] and [solution] return a constant
    array with one value per point, and every call of the plotting library
    returns an object.  Each collaborator can be told to raise instead. *)

Module Stubs.
Import Numpy Plots.

#[export] Program Instance Z_scalar : Scalar Z := {|
  fdec m e := (m * 10 ^ e)%Z;
  fadd := Z.add;
  fsub := Z.sub;
  fmul := Z.mul;
  flin start stop num i :=
    (start + (stop - start) * Z.of_nat i / Z.max 1 (Z.of_nat num - 1))%Z;
  ffmt2 _ := "0.00";
|}.
Next Obligation. intros x. simpl. lia. Qed.

Definition constant_answer (points : ndarray Z) : ndarray Z :=
  match shape points with
  | n :: _ => NdArray [n] (replicate n 7%Z)
  | [] => NdArray [] [7%Z]
  end.

Definition stub_plt (fn : string) : value Z :=
  if bool_decide (fn = "subplots") then VPair (VObj 0) (VObj 1) else VObj 2.

(** All collaborators answer. *)
Definition stub_env : env Z := {|
  model_solve _ points _ := Ok (constant_answer points);
  solution_fn _ points := Ok (constant_answer points);
  plt_call _ fn _ := Ok (stub_plt fn);
  method_call _ _ _ _ := Ok (VObj 3);
|}.

(** The model is broken. *)
Definition solve_error : exn := Exn "RuntimeError" "the model cannot be evaluated".

Definition failing_model_env : env Z := {|
  model_solve _ _ _ := Raise solve_error;
  solution_fn _ points := Ok (constant_answer points);
  plt_call _ fn _ := Ok (stub_plt fn);
  method_call _ _ _ _ := Ok (VObj 3);
|}.

(** The figure cannot be written. *)
Definition save_error : exn := Exn "FileNotFoundError" "No such file or directory".

Definition failing_save_env : env Z := {|
  model_solve _ points _ := Ok (constant_answer points);
  solution_fn _ points := Ok (constant_answer points);
  plt_call _ fn _ :=
    if bool_decide (fn = "savefig") then Raise save_error else Ok (stub_plt fn);
  method_call _ _ _ _ := Ok (VObj 3);
|}.

(** The defaults of [plot_2d], line 47-49, with a mode to choose. *)
Definition plot_2d_defaults (mode : string) : plot_2d_args Z := {|
  p2_mode := mode;
  p2_fetches := VNone;
  p2_grid := None;
  p2_cmap := "viridis";
  p2_title := "Elliptic PDE in $\mathcal{R}^2$: approximate solution";
  p2_xlim := (0, 1)%Z;
  p2_ylim := (0, 1)%Z;
  p2_num_points := None;
  p2_save := false;
  p2_path := "approximation.png";
|}.

(** The name of the function or method that a call went to. *)
Definition call_name (ev : event Z) : string :=
  match ev with
  | EvSolve _ _ => "solve"
  | EvSolution _ => "solution"
  | EvPlt fn _ => fn
  | EvMethod _ meth _ => meth
  end.

(** Three time sections of three points on a line. *)
Definition sections_2d_example : sections_2d_args Z := {|
  s2_timestamps := [0; 2; 4]%Z;
  s2_grid_size := (2, 3)%Z;
  s2_points := Some (NdArray [3; 1] [0; 1; 2]%Z);
  s2_fetches := VNone;
  s2_xlim := (0, 1)%Z;
  s2_ylim := (0, 3)%Z;
  s2_title := "Heat PDE in $\mathcal{R}$: $\hat{u}$";
  s2_save := false;
  s2_path := "sections.png";
|}.

(** Two time sections of a two by two grid. *)
Definition sections_3d_example : sections_3d_args Z := {|
  s3_timestamps := [0; 5]%Z;
  s3_grid_size := (1, 2)%Z;
  s3_mode := "imshow";
  s3_fetches := VNone;
  s3_xlim := (0, 1)%Z;
  s3_ylim := (0, 1)%Z;
  s3_zlim := (0, 1)%Z;
  s3_num_points := Some 2%Z;
  s3_title := "Heat PDE in $\mathcal{R}^2$: $\hat{u}$";
  s3_cmap := "viridis";
  s3_save := true;
  s3_path := "sections.png";
|}.

End Stubs.

(** ** What a call is asked to write and to show *)

Module PlotReadings.
Import Numpy Plots.

Section Readings.
Context {F : Type}.

(** The file that the arguments ask for: [path] when [save] is true.
    [plot_loss] has no such arguments. *)
Definition saving (c : plot_call F) : option string :=
  match c with
  | PlotLoss _ _ => None
  | PlotPair1d a => if p1_save a then Some (p1_path a) else None
  | Plot2d a => if p2_save a then Some (p2_path a) else None
  | PlotSections2d a => if s2_save a then Some (s2_path a) else None
  | PlotSections3d a => if s3_save a then Some (s3_path a) else None
  end.

(** [plt.savefig(path, dpi=300)] and [plt.show()]. *)
Definition savefig_call (path : string) : event F :=
  EvPlt "savefig" [VStr path; VKw "dpi" (VInt 300)].

Definition show_call : event F := EvPlt "show" [].

(** Whether the call reaches a [plt.show()]: [plot_2d] has one under
    [if mode in ('3d_view', 'contourf')] only (lines 91-92). *)
Definition shows (c : plot_call F) : bool :=
  match c with
  | Plot2d a => bool_decide (p2_mode a ∈ ["3d_view"; "contourf"])
  | _ => true
  end.

(** The last calls of a run that returns. *)
Definition closing_calls (c : plot_call F) : trace F :=
  match saving c with
  | Some path => [savefig_call path; show_call]
  | None => [show_call]
  end.

(** Every run of [m] that returns ends with the calls [suffix]. *)
Definition ends_with (suffix : trace F) {X} (m : M F X) : Prop :=
  forall tr0 x tr1, m tr0 = (Ok x, tr1) -> exists pre, tr1 = pre ++ suffix.

(** The first call of every run of [m] from the start satisfies [P],
    unless the run raises before it makes any call. *)
Definition opens_with (P : event F -> Prop) {X} (m : M F X) : Prop :=
  forall r tr,
    m [] = (r, tr) ->
    (tr = [] /\ is_ok r = false) \/ (exists ev rest, tr = ev :: rest /\ P ev).

Definition is_solve (ev : event F) : Prop :=
  exists p f, ev = EvSolve p f.

(** The arguments of a call that draws values over a mesh:
    [plt.contourf], [ax.contourf] or [ax.plot_surface]. *)
Definition surface_args (ev : event F) : option (list (value F)) :=
  match ev with
  | EvPlt fn args =>
      if bool_decide (fn = "contourf") then Some args else None
  | EvMethod _ meth args =>
      if bool_decide (meth ∈ ["contourf"; "plot_surface"])
      then Some args else None
  | _ => None
  end.

(** From the calls [tr0] on, every call [ev] that [m] makes satisfies
    [R pre ev], where [pre] are all the calls made before it. *)
Definition every_call_from (R : trace F -> event F -> Prop) {X}
    (m : M F X) (tr0 : trace F) : Prop :=
  forall r tr1,
    m tr0 = (r, tr1) ->
    exists ext,
      tr1 = tr0 ++ ext
      /\ forall pre ev post, ext = pre ++ ev :: post -> R (tr0 ++ pre) ev.

(** A drawing over a mesh gets the mesh [xs_], [ys_] and, as an [n] by
    [n] array, the values that the latest call of [model.solve]
    returned. *)
Definition drawn_after_solve (E : env F) (xs_ ys_ : ndarray F) (n : nat)
    (pre : trace F) (ev : event F) : Prop :=
  forall args,
    surface_args ev = Some args ->
    exists pre' p sol mid kws,
      pre = pre' ++ EvSolve p None :: mid
      /\ solve_calls mid = []
      /\ model_solve E pre' p None = Ok sol
      /\ args = VArr xs_ :: VArr ys_ :: VArr (NdArray [n; n] (data sol)) :: kws.

(** The arguments of the calls of the method [meth] in a record of
    calls, in order. *)
Definition method_args (meth : string) (ev : event F)
  : option (list (value F)) :=
  match ev with
  | EvMethod _ m args => if bool_decide (m = meth) then Some args else None
  | _ => None
  end.

(** The calls that [proj] selects from a run of [m] are [expected]: all
    of them when the run returns, the first few when it raises. *)
Definition projects {Y} (proj : event F -> option Y) (expected : list Y)
    {X} (m : M F X) : Prop :=
  forall tr0 r tr1,
    m tr0 = (r, tr1) ->
    exists ys,
      omap proj tr1 = omap proj tr0 ++ ys
      /\ ys `prefix_of` expected
      /\ (is_ok r = true -> ys = expected).

(** The same call of [plot_2d] with [num_points] left out. *)
Definition without_num_points (a : plot_2d_args F) : plot_2d_args F :=
  {| p2_mode := p2_mode a; p2_fetches := p2_fetches a; p2_grid := p2_grid a;
     p2_cmap := p2_cmap a; p2_title := p2_title a; p2_xlim := p2_xlim a;
     p2_ylim := p2_ylim a; p2_num_points := None; p2_save := p2_save a;
     p2_path := p2_path a |}.

(** The subscript [wx, wy] of the axes for section [i] of
    [plot_sections_2d], lines 116-119, and the arguments of
    [fig.add_subplot] for section [i] of [plot_sections_3d],
    lines 156-160. *)
Definition axes_index (a : sections_2d_args F) (i : nat) : list (value F) :=
  [VInt (Z.of_nat i / (s2_grid_size a).2);
   VInt (Z.of_nat i mod (s2_grid_size a).2)].

Definition subplot_args (a : sections_3d_args F) (i : nat)
  : list (value F) :=
  [VInt (s3_grid_size a).1; VInt (s3_grid_size a).2; VInt (Z.of_nat i + 1)]
  ++ (if bool_decide (s3_mode a = "3d_view")
      then [VKw "projection" (VStr "3d")] else []).

End Readings.

(** [n] samples of an interval, as [np.linspace] returns them. *)
Definition axis_samples {F} `{Scalar F} (lim : F * F) (n : nat) : ndarray F :=
  NdArray [n] (flin lim.1 lim.2 n <$> seq 0 n).

End PlotReadings.

(** ** Facts about the array operations *)

Module NumpyFacts.
Import Numpy.

Section Buffers.
Context {A : Type}.
Implicit Types (l : list A) (arrs : list (list A)).

Lemma size_of_cons n (ns : list nat) : size_of (n :: ns) = n * size_of ns.
Proof. reflexivity. Qed.


Lemma stretch_cons inner x l :
  stretch inner (x :: l) = replicate inner x ++ stretch inner l.
Proof. reflexivity. Qed.

Lemma length_stretch inner l : length (stretch inner l) = length l * inner.
Proof.
  induction l as [|x l IH]; [done|].
  rewrite stretch_cons, length_app, length_replicate, IH. simpl. lia.
Qed.

Lemma stretch_one l : stretch 1 l = l.
Proof.
  induction l as [|x l IH]; [done|].
  rewrite stretch_cons, IH. done.
Qed.

Lemma tile_S outer l : tile (S outer) l = l ++ tile outer l.
Proof. reflexivity. Qed.

Lemma length_tile outer l : length (tile outer l) = outer * length l.
Proof.
  induction outer as [|n IH]; [done|].
  rewrite tile_S, length_app, IH. lia.
Qed.

Lemma tile_one l : tile 1 l = l.
Proof. rewrite tile_S. apply app_nil_r. Qed.

Lemma tile_add n m l : tile (n + m) l = tile n l ++ tile m l.
Proof.
  induction n as [|n IH]; [done|].
  simpl. rewrite !tile_S, IH. by rewrite app_assoc.
Qed.

Lemma tile_mul n m l : tile (n * m) l = tile n (tile m l).
Proof.
  induction n as [|n IH]; [done|].
  simpl. rewrite tile_add, tile_S, IH. done.
Qed.

End Buffers.

Section Tiling.
Context {A B : Type}.

Lemma fmap_tile (f : A -> B) n (l : list A) : f <$> tile n l = tile n (f <$> l).
Proof.
  induction n as [|n IH]; [done|].
  rewrite !tile_S, fmap_app, IH. done.
Qed.

Lemma zip_with_tile {C} (f : A -> B -> C) n (l : list A) (k : list B) :
  length l = length k ->
  zip_with f (tile n l) (tile n k) = tile n (zip_with f l k).
Proof.
  intros Hlen. induction n as [|n IH]; [done|].
  rewrite !tile_S, zip_with_app by done. by rewrite IH.
Qed.

End Tiling.

Section Meshgrid.
Context {A : Type}.
Implicit Types (l a : list A) (arrs rest : list (list A)).

(** The buffers of the grids, by recursion on the inputs: the first input
    is stretched over everything after it, the grids of the other inputs
    are tiled once per element of the first. *)
Lemma meshgrid_data_cons a rest :
  data <$> meshgrid_ij (a :: rest)
  = stretch (size_of (length <$> rest)) a
      :: (tile (length a) <$> (data <$> meshgrid_ij rest)).
Proof.
  unfold meshgrid_ij. rewrite !fmap_imap, imap_cons. simpl. f_equal.
  - rewrite drop_0. apply tile_one.
  - apply imap_ext. intros i x _. simpl.
    rewrite tile_mul. done.
Qed.

Lemma meshgrid_shape arrs g :
  g ∈ meshgrid_ij arrs -> shape g = length <$> arrs.
Proof.
  unfold meshgrid_ij. intros Hg.
  apply list_elem_of_lookup in Hg as [i Hi].
  rewrite list_lookup_imap in Hi.
  destruct (arrs !! i); simplify_eq/=. done.
Qed.

Lemma length_meshgrid arrs : length (meshgrid_ij arrs) = length arrs.
Proof. unfold meshgrid_ij. apply length_imap. Qed.

Lemma length_nested_loops arrs :
  length (nested_loops arrs) = size_of (length <$> arrs).
Proof.
  induction arrs as [|a rest IH]; [done|].
  rewrite fmap_cons, size_of_cons, <- IH. clear IH. cbn [nested_loops].
  induction a as [|x a IHa]; [done|].
  rewrite bind_cons, length_app, length_fmap, IHa. done.
Qed.

Lemma nested_loops_row_length arrs :
  Forall (fun row => length row = length arrs) (nested_loops arrs).
Proof.
  induction arrs as [|a rest IH]; simpl; [by repeat constructor|].
  apply Forall_forall. intros row Hrow.
  apply list_elem_of_bind in Hrow as (x & Hrow & _).
  apply list_elem_of_fmap in Hrow as (row' & -> & Hrow').
  simpl. f_equal. by eapply Forall_forall in IH.
Qed.

(** Transposition on columns of one common length. *)
Lemma length_transpose (cols : list (list A)) n :
  cols <> [] -> Forall (fun c => length c = n) cols ->
  length (transpose cols) = n.
Proof.
  induction cols as [|c cs IH]; [done|]. intros _ Hall.
  apply Forall_cons in Hall as [Hc Hcs].
  destruct cs as [|c' cs']; simpl.
  - by rewrite length_fmap.
  - rewrite length_zip_with. simpl in IH. rewrite IH by done. lia.
Qed.

Lemma transpose_tile (cols : list (list A)) n m :
  cols <> [] -> Forall (fun c => length c = m) cols ->
  transpose (tile n <$> cols) = tile n (transpose cols).
Proof.
  induction cols as [|c cs IH]; [done|]. intros _ Hall.
  apply Forall_cons in Hall as [Hc Hcs].
  destruct cs as [|c' cs'].
  - simpl. apply fmap_tile.
  - change (transpose (tile n <$> c :: c' :: cs'))
      with (zip_with cons (tile n c) (transpose (tile n <$> c' :: cs'))).
    rewrite IH by done.
    change (transpose (c :: c' :: cs'))
      with (zip_with cons c (transpose (c' :: cs'))).
    apply zip_with_tile.
    rewrite (length_transpose (c' :: cs') m) by done. done.
Qed.

(** One step of the nested loops, on buffers. *)
Lemma zip_stretch_tile a (R : list (list A)) :
  zip_with cons (stretch (length R) a) (tile (length a) R)
  = x ← a; cons x <$> R.
Proof.
  induction a as [|x a IH]; [done|].
  simpl length. rewrite stretch_cons, tile_S, bind_cons.
  rewrite zip_with_app by (by rewrite length_replicate).
  rewrite IH. f_equal.
  clear IH. generalize x. clear x.
  induction R as [|r R IHR]; intros x; [done|].
  simpl. f_equal. apply IHR.
Qed.

Lemma meshgrid_data_length arrs :
  Forall (fun c => length c = size_of (length <$> arrs))
         (data <$> meshgrid_ij arrs).
Proof.
  induction arrs as [|a rest IH]; [constructor|].
  rewrite meshgrid_data_cons, fmap_cons, size_of_cons. constructor.
  - apply length_stretch.
  - apply Forall_fmap. eapply Forall_impl; [exact IH|].
    intros c Hc. simpl. rewrite length_tile, Hc. done.
Qed.

(** Stacking the grids along a new last axis enumerates the nested loops. *)
Lemma transpose_meshgrid arrs :
  arrs <> [] -> transpose (data <$> meshgrid_ij arrs) = nested_loops arrs.
Proof.
  induction arrs as [|a rest IH]; [done|]. intros _.
  rewrite meshgrid_data_cons.
  destruct rest as [|b rest'].
  - simpl. rewrite stretch_one. clear IH.
    induction a as [|x a IHa]; [done|].
    rewrite fmap_cons, bind_cons, IHa. done.
  - assert (Hne : data <$> meshgrid_ij (b :: rest') <> []).
    { intros Heq. apply (f_equal length) in Heq.
      rewrite length_fmap, length_meshgrid in Heq. done. }
    destruct (data <$> meshgrid_ij (b :: rest')) as [|d ds] eqn:HD; [done|].
    change (transpose (stretch (size_of (length <$> b :: rest')) a
                         :: (tile (length a) <$> d :: ds)))
      with (zip_with cons (stretch (size_of (length <$> b :: rest')) a)
                          (transpose (tile (length a) <$> d :: ds))).
    rewrite (transpose_tile _ _ (size_of (length <$> b :: rest'))); [|done|].
    + rewrite IH by done. rewrite <- length_nested_loops.
      apply zip_stretch_tile.
    + rewrite <- HD. apply meshgrid_data_length.
Qed.

(** Cutting a buffer made of [k]-element rows back into its rows. *)
Lemma rows_join (L : list (list A)) k :
  Forall (fun r => length r = k) L ->
  (fun i => take k (drop (i * k) (mjoin L))) <$> seq 0 (length L) = L.
Proof.
  induction L as [|r L IH]; [done|]. intros Hall.
  apply Forall_cons in Hall as [Hr HL].
  simpl length. rewrite <- cons_seq, fmap_cons. f_equal.
  - simpl. by apply take_app_length'.
  - rewrite <- fmap_S_seq, <- list_fmap_compose.
    rewrite <- (IH HL) at 2. apply list_fmap_ext. intros _ i _. simpl.
    f_equal. rewrite drop_app_ge by lia. f_equal. lia.
Qed.

Lemma length_join_uniform (L : list (list A)) k :
  Forall (fun r => length r = k) L -> length (mjoin L) = length L * k.
Proof.
  induction 1 as [|r L Hr _ IH]; [done|].
  simpl. rewrite length_app, IH, Hr. done.
Qed.

(** The characterisation of [cart_prod] used by all its properties: for at
    least one input it returns the two-dimensional array whose buffer is
    the nested-loop enumeration, row after row. *)
Lemma cart_prod_spec arrs :
  arrs <> [] ->
  cart_prod arrs
  = Ok (NdArray [size_of (length <$> arrs); length arrs]
                (mjoin (nested_loops arrs))).
Proof.
  intros Hne. unfold cart_prod.
  pose proof (length_meshgrid arrs) as Hlen.
  pose proof (transpose_meshgrid arrs Hne) as Htr.
  pose proof (@meshgrid_shape arrs) as Hshape.
  destruct (meshgrid_ij arrs) as [|g0 gs] eqn:Hg.
  { destruct arrs; done. }
  unfold np_stack_last.
  assert (forallb (fun a : ndarray A => bool_decide (shape a = shape g0))
                  (g0 :: gs) = true) as ->.
  { apply forallb_forall. intros g Hin. apply list_elem_of_In in Hin.
    apply bool_decide_eq_true.
    rewrite (Hshape g Hin), (Hshape g0) by constructor. done. }
  rewrite Htr, Hlen. simpl. unfold reshape_rows. simpl.
  pose proof (nested_loops_row_length arrs) as Hrows.
  rewrite (length_join_uniform _ _ Hrows), length_nested_loops.
  assert (length arrs <> 0) as Hk by (destruct arrs; done).
  rewrite (proj2 (Nat.eqb_neq _ _) Hk).
  rewrite Nat.Div0.mod_mul, Nat.eqb_refl, Nat.div_mul by done. done.
Qed.

(** *** The grids by index

    The [i]-th grid holds, at the flat index [f] of the multi-index
    [(j1, ..., jk)], the element [j_i] of the [i]-th input, where
    [j_i = (f / (n_(i+1) * ... * n_k)) mod n_i]. *)

Lemma lookup_tile outer l f :
  f < outer * length l -> tile outer l !! f = l !! (f mod length l).
Proof.
  revert f. induction outer as [|n IH]; intros f Hf; [lia|].
  rewrite tile_S. destruct (decide (f < length l)) as [Hlt|Hge].
  - rewrite lookup_app_l, Nat.mod_small by done. done.
  - rewrite lookup_app_r, IH by lia. f_equal.
    replace f with (f - length l + 1 * length l) at 2 by lia.
    by rewrite Nat.Div0.mod_add.
Qed.

Lemma lookup_stretch inner l f :
  0 < inner -> stretch inner l !! f = l !! (f / inner).
Proof.
  intros Hpos. revert f. induction l as [|x l IH]; intros f; [done|].
  rewrite stretch_cons. destruct (decide (f < inner)) as [Hlt|Hge].
  - rewrite lookup_app_l by (by rewrite length_replicate).
    rewrite Nat.div_small by done. by apply lookup_replicate_2.
  - rewrite lookup_app_r, length_replicate, IH by (rewrite ?length_replicate; lia).
    replace f with (f - inner + 1 * inner) at 2 by lia.
    rewrite Nat.div_add by lia. by rewrite Nat.add_1_r.
Qed.



End Meshgrid.

Section Components.
Context {A : Type}.
Implicit Types (arrs : list (list A)).


Lemma rows_cart_prod arrs :
  arrs <> [] ->
  rows (NdArray [size_of (length <$> arrs); length arrs]
                (mjoin (nested_loops arrs)))
  = nested_loops arrs.
Proof.
  intros Hne. unfold rows. simpl.
  rewrite <- length_nested_loops.
  apply rows_join, nested_loops_row_length.
Qed.

Lemma nested_loops_single (a : list A) :
  nested_loops [a] = (fun x => [x]) <$> a.
Proof.
  simpl. induction a as [|x a IH]; [done|].
  rewrite bind_cons, fmap_cons, IH. done.
Qed.

Lemma join_singletons (a : list A) : mjoin ((fun x => [x]) <$> a) = a.
Proof.
  induction a as [|x a IH]; [done|].
  rewrite fmap_cons. simpl. by rewrite IH.
Qed.

End Components.

End NumpyFacts.

(** ** Properties of [cart_prod] *)

Module CartProd.
Import Numpy NumpyFacts.

(** C1. For one or more one-dimensional inputs of lengths [n1..nk],
    [cart_prod] returns a two-dimensional array of shape
    [(n1*...*nk, k)]: its buffer holds [n1*...*nk*k] elements, it has
    [n1*...*nk] rows and every row has [k] entries.  (The inputs need not
    even be non-empty.) *)
Theorem cart_prod_shape {A} (arrs : list (list A)) :
  arrs <> [] ->
  exists out,
    cart_prod arrs = Ok out
    /\ shape out = [size_of (length <$> arrs); length arrs]
    /\ well_shaped out
    /\ length (rows out) = size_of (length <$> arrs)
    /\ Forall (fun row => length row = length arrs) (rows out).
Proof.
  intros Hne. eexists. split; [by apply cart_prod_spec|].
  rewrite rows_cart_prod by done.
  split_and!.
  - done.
  - unfold well_shaped. simpl.
    rewrite (length_join_uniform _ _ (nested_loops_row_length arrs)).
    rewrite length_nested_loops. lia.
  - apply length_nested_loops.
  - apply nested_loops_row_length.
Qed.

Lemma cart_prod_shape_witness :
  exists out,
    cart_prod [[1; 2; 3]; [10; 20]]%Z = Ok out
    /\ shape out = [6; 2]
    /\ well_shaped out
    /\ length (rows out) = 6
    /\ Forall (fun row => length row = 2) (rows out).
Proof. apply (cart_prod_shape [[1; 2; 3]; [10; 20]]%Z). discriminate. Defined.



(** C7. For a single one-dimensional input [a], [cart_prod(a)] is [a]
    reshaped to one column: the shape is [(len(a), 1)], the buffer is [a]
    itself, and the rows are the entries of [a] in their order. *)
Theorem cart_prod_single {A} (a : list A) :
  cart_prod [a] = reshape_rows 1 (NdArray [length a] a)
  /\ cart_prod [a] = Ok (column a)
  /\ data (column a) = a
  /\ rows (column a) = (fun x => [x]) <$> a.
Proof.
  assert (Hc : cart_prod [a] = Ok (column a)).
  { rewrite cart_prod_spec by done.
    rewrite nested_loops_single, join_singletons.
    unfold column. simpl. by rewrite Nat.mul_1_r. }
  split_and!; [|done|done|].
  - rewrite Hc. unfold reshape_rows, column. cbn [data Nat.eqb].
    rewrite Nat.mod_1_r, Nat.div_1_r. done.
  - rewrite <- nested_loops_single, <- (rows_cart_prod [a]) by done.
    rewrite nested_loops_single, join_singletons.
    unfold column. simpl. by rewrite Nat.mul_1_r.
Qed.

End CartProd.

(** ** Running computations *)

Module SRFacts.

Section Monad.
Context {S : Type}.

Lemma bind_run {X Y} (m : SR S X) (f : X -> SR S Y) s :
  (m ≫= f) s
  = match m s with
    | (Ok x, s') => f x s'
    | (Raise e, s') => (Raise e, s')
    end.
Proof. reflexivity. Qed.

Lemma bind_assoc_run {X Y Z} (m : SR S X) (f : X -> SR S Y)
    (g : Y -> SR S Z) s :
  ((m ≫= f) ≫= g) s = (m ≫= fun x => f x ≫= g) s.
Proof. rewrite !bind_run. by destruct (m s) as [[x|e] s']. Qed.

Lemma lift_bind_run {X Y} (r : result X) (f : X -> SR S Y) s :
  (lift r ≫= f) s
  = match r with Ok x => f x s | Raise e => (Raise e, s) end.
Proof. rewrite bind_run. unfold lift. by destruct r. Qed.

Lemma ret_bind_run {X Y} (x : X) (f : X -> SR S Y) s :
  (mret x ≫= f) s = f x s.
Proof. reflexivity. Qed.

End Monad.

End SRFacts.

(** ** [cart_prod] on a store: purity *)

Module HeapFacts.
Import Numpy NumpyFacts NumpyHeap SRFacts.

Section Store.
Context {A : Type}.
Implicit Types (h : store A) (ds : list (list A)) (gs : list (ndarray A)).

Lemma h_read_run h r d : h !! buf r = Some d -> h_read r h = (Ok d, h).
Proof. intros Hr. unfold h_read. by rewrite Hr. Qed.

Lemma h_fetch_run h r g : denotes h r g -> h_fetch r h = (Ok g, h).
Proof.
  intros [Hr Hs]. unfold h_fetch.
  rewrite bind_run, (h_read_run _ _ _ Hr), Hs. by destruct g.
Qed.

Lemma mapM_read h arrs ds :
  holds h arrs ds -> mapM h_read arrs h = (Ok ds, h).
Proof.
  induction 1 as [|r d arrs ds Hr _ IH]; [done|].
  cbn [mapM]. rewrite bind_run, (h_read_run _ _ _ Hr), bind_run, IH. done.
Qed.

Lemma mapM_fetch h refs gs :
  Forall2 (denotes h) refs gs -> mapM h_fetch refs h = (Ok gs, h).
Proof.
  induction 1 as [|r g refs gs Hr _ IH]; [done|].
  cbn [mapM]. rewrite bind_run, (h_fetch_run _ _ _ Hr), bind_run, IH. done.
Qed.

Lemma mapM_alloc h gs :
  mapM h_alloc gs h = (Ok (fresh_refs (length h) gs), h ++ (data <$> gs)).
Proof.
  revert h. induction gs as [|g gs IH]; intros h.
  - simpl. by rewrite app_nil_r.
  - cbn [mapM]. rewrite bind_run. unfold h_alloc at 1.
    rewrite bind_run, IH.
    unfold fresh_refs. rewrite imap_cons, fmap_cons, length_app. simpl.
    rewrite Nat.add_0_r, <- app_assoc. simpl. unfold mret, SR_ret.
    do 3 f_equal.
    apply imap_ext. intros i x _. simpl. f_equal. lia.
Qed.

Lemma fresh_refs_denote h gs :
  Forall2 (denotes (h ++ (data <$> gs))) (fresh_refs (length h) gs) gs.
Proof.
  apply Forall2_same_length_lookup. split.
  - unfold fresh_refs. by rewrite length_imap.
  - intros i r g Hr Hg. unfold fresh_refs in Hr.
    rewrite list_lookup_imap, Hg in Hr. simplify_eq/=. split; [simpl|done].
    rewrite lookup_app_r by lia.
    replace (length h + i - length h) with i by lia.
    by rewrite list_lookup_fmap, Hg.
Qed.

Lemma reshape_rows_data k (a v : ndarray A) :
  reshape_rows k a = Ok v -> data v = data a.
Proof.
  unfold reshape_rows. intros Hv.
  repeat case_match; by simplify_eq.
Qed.

(** The run of [h_cart_prod] in full: what it returns and the store it
    leaves, in terms of the functions on values. *)
Lemma h_cart_prod_eq h arrs ds :
  holds h arrs ds ->
  h_cart_prod arrs h
  = let h1 := h ++ (data <$> meshgrid_ij ds) in
    match np_stack_last (meshgrid_ij ds) with
    | Raise e => (Raise e, h1)
    | Ok stacked =>
        (v ← reshape_rows (length ds) stacked;
         mret (ARef (length h1) (shape v)),
         h1 ++ [data stacked])
    end.
Proof.
  intros Hin. unfold h_cart_prod.
  assert (Hlen : length arrs = length ds) by (by eapply Forall2_length).
  rewrite bind_run. unfold h_meshgrid_ij at 1.
  rewrite bind_run, (mapM_read _ _ _ Hin), mapM_alloc.
  unfold h_stack_last.
  rewrite !bind_run, (mapM_fetch _ _ _ (fresh_refs_denote h (meshgrid_ij ds))).
  cbv zeta. set (h1 := h ++ (data <$> meshgrid_ij ds)). unfold lift at 1.
  destruct (np_stack_last (meshgrid_ij ds)) as [stacked|e]; [|done].
  unfold h_alloc at 1. unfold h_reshape_rows.
  rewrite bind_run. cbv beta iota.
  rewrite bind_run, (h_fetch_run _ _ stacked).
  2:{ split; [|done]. simpl. by rewrite lookup_app_r, Nat.sub_diag by lia. }
  rewrite bind_run. unfold lift. rewrite Hlen.
  by destruct (reshape_rows (length ds) stacked).
Qed.

Lemma h_cart_prod_run h arrs ds :
  holds h arrs ds ->
  exists new,
    (h_cart_prod arrs h).2 = h ++ new
    /\ observe (h_cart_prod arrs h) = cart_prod ds
    /\ forall r, (h_cart_prod arrs h).1 = Ok r -> length h <= buf r.
Proof.
  intros Hin. rewrite (h_cart_prod_eq _ _ _ Hin). unfold cart_prod.
  cbv zeta. set (h1 := h ++ (data <$> meshgrid_ij ds)).
  destruct (np_stack_last (meshgrid_ij ds)) as [stacked|e].
  2:{ by exists (data <$> meshgrid_ij ds). }
  exists ((data <$> meshgrid_ij ds) ++ [data stacked]).
  split; [subst h1; by rewrite <- app_assoc|].
  cbn [mbind result_bind].
  destruct (reshape_rows (length ds) stacked) as [v|e] eqn:Hv; [|done].
  split.
  - simpl. rewrite lookup_app_r, Nat.sub_diag by lia. simpl.
    rewrite <- (reshape_rows_data _ _ _ Hv). by destruct v.
  - intros r [= <-]. simpl. subst h1. rewrite length_app. lia.
Qed.

End Store.

(** C6. [cart_prod] is a pure function of the contents of its inputs.
    Whatever the store, and wherever in it the inputs [ds] sit: the caller
    observes exactly [cart_prod ds] (so two calls on equal inputs observe
    equal outputs, also in different stores and after any other calls);
    the call only appends newly allocated buffers to the store, so every
    buffer that existed before, the inputs included, is unchanged; and the
    returned array lives in a new buffer, not in one of the inputs'.  The
    call touches nothing but the store: it is a function from stores to a
    result and a store. *)
Theorem cart_prod_pure {A} (h h' : store A) (arrs arrs' : list aref)
    (ds : list (list A)) :
  holds h arrs ds ->
  holds h' arrs' ds ->
  observe (h_cart_prod arrs h) = observe (h_cart_prod arrs' h')
  /\ observe (h_cart_prod arrs h) = cart_prod ds
  /\ h `prefix_of` (h_cart_prod arrs h).2
  /\ holds (h_cart_prod arrs h).2 arrs ds
  /\ (forall r, (h_cart_prod arrs h).1 = Ok r -> length h <= buf r).
Proof.
  intros Hin Hin'.
  destruct (h_cart_prod_run h arrs ds Hin) as (new & Hst & Hobs & Hfresh).
  destruct (h_cart_prod_run h' arrs' ds Hin') as (_ & _ & Hobs' & _).
  split_and!; [congruence|done| |  |done].
  - rewrite Hst. by apply prefix_app_r.
  - rewrite Hst. eapply Forall2_impl; [exact Hin|].
    intros r d Hr. simpl. by apply lookup_app_l_Some.
Qed.

Lemma cart_prod_pure_witness :
  observe (h_cart_prod [ARef 0 [2]; ARef 2 [2]] [[1; 2]; [7]; [10; 20]]%Z)
  = observe (h_cart_prod [ARef 1 [2]; ARef 0 [2]] [[10; 20]; [1; 2]]%Z)
  /\ observe (h_cart_prod [ARef 0 [2]; ARef 2 [2]] [[1; 2]; [7]; [10; 20]]%Z)
     = cart_prod [[1; 2]; [10; 20]]%Z
  /\ [[1; 2]; [7]; [10; 20]]%Z
       `prefix_of` (h_cart_prod [ARef 0 [2]; ARef 2 [2]]
                                [[1; 2]; [7]; [10; 20]]%Z).2
  /\ holds (h_cart_prod [ARef 0 [2]; ARef 2 [2]] [[1; 2]; [7]; [10; 20]]%Z).2
           [ARef 0 [2]; ARef 2 [2]] [[1; 2]; [10; 20]]%Z
  /\ (forall r,
        (h_cart_prod [ARef 0 [2]; ARef 2 [2]] [[1; 2]; [7]; [10; 20]]%Z).1
        = Ok r -> 3 <= buf r).
Proof.
  apply (cart_prod_pure [[1; 2]; [7]; [10; 20]]%Z [[10; 20]; [1; 2]]%Z
                        [ARef 0 [2]; ARef 2 [2]] [ARef 1 [2]; ARef 0 [2]]
                        [[1; 2]; [10; 20]]%Z);
    repeat constructor.
Defined.

End HeapFacts.

(** ** The plotting procedures: calls made and errors raised *)

Module PlotFacts.
Import Numpy NumpyFacts Plots SRFacts.

Section Propagation.
Context {F : Type} `{Scalar F}.
Variable E : env F.

Local Abbreviation trace := (list (event F)).
Local Abbreviation M := (SR (list (event F))).

Lemma propagates_silent {X} (tr0 : trace) (r : result X) :
  propagates E tr0 r tr0.
Proof.
  exists []. split; [by rewrite app_nil_r|].
  intros pre ev post e Heq. by destruct pre.
Qed.

Lemma propagates_call {X} (tr0 : trace) (r : result X) ev :
  (forall e, failure E tr0 ev = Some e -> r = Raise e) ->
  propagates E tr0 r (tr0 ++ [ev]).
Proof.
  intros Hr. exists [ev]. split; [done|].
  intros pre ev' post e Heq Hfail.
  destruct pre as [|ev'' pre]; simplify_eq/=.
  - rewrite app_nil_r in Hfail. split; [done|]. by apply Hr.
  - by destruct pre.
Qed.

Lemma error_of_Some {X} (r : result X) e : error_of r = Some e -> r = Raise e.
Proof. destruct r; simpl; congruence. Qed.

Lemma propagating_ret {X} (x : X) : propagating E (mret x).
Proof. intros tr0 r tr1 [= <- <-]. apply propagates_silent. Qed.

Lemma propagating_lift {X} (r : result X) : propagating E (lift r).
Proof. intros tr0 r' tr1 [= <- <-]. apply propagates_silent. Qed.

Lemma propagating_solve points fetches : propagating E (solve E points fetches).
Proof.
  intros tr0 r tr1 [= <- <-]. apply propagates_call.
  intros e. apply error_of_Some.
Qed.

Lemma propagating_solution points : propagating E (solution E points).
Proof.
  intros tr0 r tr1 [= <- <-]. apply propagates_call.
  intros e. apply error_of_Some.
Qed.

Lemma propagating_plt fn args : propagating E (plt E fn args).
Proof.
  intros tr0 r tr1 [= <- <-]. apply propagates_call.
  intros e. apply error_of_Some.
Qed.

Lemma propagating_method obj meth args : propagating E (method E obj meth args).
Proof.
  intros tr0 r tr1 [= <- <-]. apply propagates_call.
  intros e. apply error_of_Some.
Qed.

Lemma propagating_bind {X Y} (m : M X) (f : X -> M Y) :
  propagating E m -> (forall x, propagating E (f x)) -> propagating E (m ≫= f).
Proof.
  intros Hm Hf tr0 r tr2. rewrite bind_run.
  destruct (m tr0) as [[x|e] tr1] eqn:Hrun.
  - intros Hrun2.
    destruct (Hm _ _ _ Hrun) as (ext1 & -> & H1).
    destruct (Hf x _ _ _ Hrun2) as (ext2 & -> & H2).
    exists (ext1 ++ ext2). split; [by rewrite app_assoc|].
    intros pre ev post e Heq Hfail.
    apply app_eq_app in Heq as [l [[-> Heq]|[-> ->]]].
    + destruct l as [|ev' l]; simpl in Heq.
      * subst ext2. apply (H2 [] ev post e); [done|]. by rewrite !app_nil_r.
      * injection Heq as <- ->.
        by destruct (H1 pre ev l e eq_refl Hfail).
    + apply (H2 l ev post e); [done|]. by rewrite <- app_assoc.
  - intros [= <- <-].
    destruct (Hm _ _ _ Hrun) as (ext & -> & H1).
    exists ext. split; [done|].
    intros pre ev post e' Heq Hfail.
    by destruct (H1 _ _ _ _ Heq Hfail) as [-> [= ->]].
Qed.

Lemma propagating_mapM {X Y} (f : X -> M Y) (l : list X) :
  (forall x, propagating E (f x)) -> propagating E (mapM f l).
Proof.
  intros Hf. induction l as [|x l IH]; simpl.
  - apply propagating_ret.
  - apply propagating_bind; [done|]. intros y.
    apply propagating_bind; [done|]. intros ys. apply propagating_ret.
Qed.

End Propagation.

Create HintDb propagate.

#[local] Hint Resolve propagating_ret propagating_lift propagating_solve
  propagating_solution propagating_plt propagating_method : propagate.

(** Walks through a procedure: binds, branches and loops. *)
Ltac propagate :=
  repeat first
    [ progress auto with propagate
    | apply propagating_bind; [| intros ?]
    | apply propagating_mapM; intros ?
    | match goal with
      | |- propagating _ (let '(_, _) := ?p in _) => destruct p
      | |- propagating _ (if ?b then _ else _) => destruct b
      | |- propagating _ (match ?x with _ => _ end) => destruct x
      end ].

Section Procedures.
Context {F : Type} `{Scalar F}.
Variable E : env F.

Lemma propagating_plot_loss loss color : propagating E (plot_loss E loss color).
Proof. unfold plot_loss, do_. propagate. Qed.

Lemma propagating_plot_pair_1d a : propagating E (plot_pair_1d E a).
Proof. unfold plot_pair_1d, savefig, when, do_. propagate. Qed.

Lemma propagating_plot_2d a : propagating E (plot_2d E a).
Proof. unfold plot_2d, savefig, when, do_. cbv zeta. propagate. Qed.

Lemma propagating_section_2d a axes points it :
  propagating E (section_2d E a axes points it).
Proof. unfold section_2d, do_. propagate. Qed.

Lemma propagating_plot_sections_2d a : propagating E (plot_sections_2d E a).
Proof.
  unfold plot_sections_2d, savefig, when, do_, forM_. cbv zeta.
  propagate. apply propagating_section_2d.
Qed.

Lemma propagating_section_3d a fig xs ys grid xs_ ys_ it :
  propagating E (section_3d E a fig xs ys grid xs_ ys_ it).
Proof. unfold section_3d, do_. cbv zeta. propagate. Qed.

Lemma propagating_plot_sections_3d a : propagating E (plot_sections_3d E a).
Proof.
  unfold plot_sections_3d, savefig, when, do_, forM_. cbv zeta.
  propagate. apply propagating_section_3d.
Qed.

(** Every plotting procedure hands a collaborator's exception on. *)
Lemma propagating_run_plot c : propagating E (run_plot E c).
Proof.
  destruct c; simpl.
  - apply propagating_plot_loss.
  - apply propagating_plot_pair_1d.
  - apply propagating_plot_2d.
  - apply propagating_plot_sections_2d.
  - apply propagating_plot_sections_3d.
Qed.

End Procedures.

(** *** Which calls a computation can make *)

Section Emits.
Context {F : Type} `{Scalar F}.
Variable E : env F.
Variable Q : event F -> Prop.

Lemma emits_ret {X} (x : X) : emits Q (mret x).
Proof. intros tr0 r tr1 [= <- <-]. exists []. by rewrite app_nil_r. Qed.

Lemma emits_lift {X} (r : result X) : emits Q (lift r).
Proof. intros tr0 r' tr1 [= <- <-]. exists []. by rewrite app_nil_r. Qed.

Lemma emits_plt fn args : Q (EvPlt fn args) -> emits Q (plt E fn args).
Proof. intros HQ tr0 r tr1 [= <- <-]. exists [EvPlt fn args]. eauto. Qed.

Lemma emits_method obj meth args :
  Q (EvMethod obj meth args) -> emits Q (method E obj meth args).
Proof. intros HQ tr0 r tr1 [= <- <-]. exists [EvMethod obj meth args]. eauto. Qed.

Lemma emits_solve points fetches :
  Q (EvSolve points fetches) -> emits Q (solve E points fetches).
Proof. intros HQ tr0 r tr1 [= <- <-]. exists [EvSolve points fetches]. eauto. Qed.

Lemma emits_solution points :
  Q (EvSolution points) -> emits Q (solution E points).
Proof. intros HQ tr0 r tr1 [= <- <-]. exists [EvSolution points]. eauto. Qed.

Lemma emits_bind {X Y} (m : M F X) (f : X -> M F Y) :
  emits Q m -> (forall x, emits Q (f x)) -> emits Q (m ≫= f).
Proof.
  intros Hm Hf tr0 r tr2. rewrite bind_run.
  destruct (m tr0) as [[x|e] tr1] eqn:Hrun.
  - intros Hrun2.
    destruct (Hm _ _ _ Hrun) as (ext1 & -> & H1).
    destruct (Hf x _ _ _ Hrun2) as (ext2 & -> & H2).
    exists (ext1 ++ ext2). split; [by rewrite app_assoc|].
    by apply Forall_app.
  - intros [= <- <-]. by apply Hm in Hrun.
Qed.

Lemma emits_mapM {X Y} (f : X -> M F Y) (l : list X) :
  (forall x, emits Q (f x)) -> emits Q (mapM f l).
Proof.
  intros Hf. induction l as [|x l IH]; simpl.
  - apply emits_ret.
  - apply emits_bind; [done|]. intros y.
    apply emits_bind; [done|]. intros ys. apply emits_ret.
Qed.

End Emits.

(** Walks through a procedure whose remaining calls all go to the
    plotting library. *)
Ltac emit :=
  repeat first
    [ apply emits_ret
    | apply emits_lift
    | apply emits_plt; done
    | apply emits_method; done
    | apply emits_solution; done
    | apply emits_bind; [| intros ?]
    | apply emits_mapM; intros ?
    | match goal with
      | |- emits _ (let '(_, _) := ?p in _) => destruct p
      | |- emits _ (if ?b then _ else _) => destruct b
      | |- emits _ (match ?x with _ => _ end) => destruct x
      end ].

Section Calls.
Context {F : Type} `{Scalar F}.
Variable E : env F.

Lemma solve_calls_app (tr1 tr2 : trace F) :
  solve_calls (tr1 ++ tr2) = solve_calls tr1 ++ solve_calls tr2.
Proof. apply omap_app. Qed.

Lemma solve_calls_library (ext : trace F) :
  Forall (fun ev => is_library_call ev = true) ext -> solve_calls ext = [].
Proof.
  induction 1 as [|ev ext Hev _ IH]; [done|].
  destruct ev; try done; simpl; apply IH.
Qed.

Lemma solve_bind_run {Y} points fetches (k : ndarray F -> M F Y) tr :
  (solve E points fetches ≫= k) tr
  = match model_solve E tr points fetches with
    | Ok x => k x (tr ++ [EvSolve points fetches])
    | Raise e => (Raise e, tr ++ [EvSolve points fetches])
    end.
Proof. rewrite bind_run. unfold solve. by destruct (model_solve E tr points fetches). Qed.

Lemma plt_bind_run {Y} fn args (k : value F -> M F Y) tr :
  (plt E fn args ≫= k) tr
  = match plt_call E tr fn args with
    | Ok x => k x (tr ++ [EvPlt fn args])
    | Raise e => (Raise e, tr ++ [EvPlt fn args])
    end.
Proof. rewrite bind_run. unfold plt. by destruct (plt_call E tr fn args). Qed.

End Calls.

End PlotFacts.

(** ** Properties of [plot_2d] *)

Module Plot2d.
Import Numpy NumpyFacts Plots SRFacts PlotFacts Stubs.

(** The mode tests of a mode string outside the three known ones. *)
Lemma unknown_mode_tests (m : string) :
  m ∉ ["imshow"; "contourf"; "3d_view"] ->
  bool_decide (m = "imshow") = false
  /\ bool_decide (m ∈ ["contourf"; "3d_view"]) = false
  /\ bool_decide (m ∈ ["imshow"; "contourf"]) = false
  /\ bool_decide (m ∈ ["3d_view"; "contourf"]) = false.
Proof.
  intros Hm. rewrite !bool_decide_eq_false.
  rewrite !elem_of_cons, !elem_of_nil in *. tauto.
Qed.

(** The mode tests of the contour and the surface mode. *)
Lemma mesh_mode_tests (m : string) :
  m ∈ ["contourf"; "3d_view"] ->
  bool_decide (m = "imshow") = false
  /\ bool_decide (m ∈ ["contourf"; "3d_view"]) = true.
Proof.
  intros Hm. rewrite bool_decide_eq_false, bool_decide_eq_true.
  split; [|done].
  rewrite !elem_of_cons, elem_of_nil in Hm.
  by destruct Hm as [->|[->|[]]].
Qed.

Section Dispatch.
Context {F : Type} `{Scalar F}.
Variable E : env F.

(** What [plot_2d] does on a mode string it does not know. *)
Lemma plot_2d_unknown_mode_run (a : plot_2d_args F) :
  p2_mode a ∉ ["imshow"; "contourf"; "3d_view"] ->
  plot_2d E a []
  = if p2_save a
    then (do_ (plt E "savefig" [VStr (p2_path a); VKw "dpi" (VInt 300)])) []
    else (Ok tt, []).
Proof.
  intros (H1 & H2 & H3 & H4)%unknown_mode_tests.
  unfold plot_2d, savefig. cbv zeta. rewrite H1, H2, H3, H4.
  unfold when. destruct (p2_save a); [|done].
  unfold do_, plt, mbind, SR_bind, mret, SR_ret. simpl.
  by destruct (plt_call E [] _ _).
Qed.

(** What [plot_2d] does in the contour and surface modes on a grid of the
    caller's. *)
Lemma plot_2d_given_grid_run (a : plot_2d_args F) g :
  p2_mode a ∈ ["contourf"; "3d_view"] ->
  p2_grid a = Some g ->
  plot_2d E a []
  = (match model_solve E [] g None with
     | Ok _ => Raise (Exn "UnboundLocalError" "xs")
     | Raise e => Raise e
     end,
     [EvSolve g None]).
Proof.
  intros [H1 H2]%mesh_mode_tests Hgrid. unfold plot_2d. cbv zeta.
  rewrite H1, H2.
  rewrite bind_assoc_run, lift_bind_run. unfold contour_grid. rewrite Hgrid.
  rewrite bind_assoc_run, solve_bind_run. simpl.
  by destruct (model_solve E [] g None).
Qed.


Lemma or_default_nonneg (num_points : option Z) (d : Z) :
  (0 <= d)%Z ->
  (forall n, num_points = Some n -> (0 <= n)%Z) ->
  (0 <= or_default num_points d)%Z.
Proof.
  intros Hd Hn. unfold or_default.
  destruct num_points as [n|]; [|done].
  destruct (n =? 0)%Z; [done|]. by apply Hn.
Qed.

End Dispatch.

(** C3, as the code has it.  On a mode string other than ['imshow'],
    ['contourf'] and ['3d_view'] the model is not called and nothing is
    drawn.  With [save] false no call at all is made and [plot_2d] returns
    normally.  With [save] true the one call made is
    [plt.savefig(path, dpi=300)], and [plot_2d] returns normally unless
    that call raises, in which case its exception is the outcome. *)
Theorem plot_2d_unknown_mode {F} `{Scalar F} (E : env F)
    (a : plot_2d_args F) r tr :
  p2_mode a ∉ ["imshow"; "contourf"; "3d_view"] ->
  plot_2d E a [] = (r, tr) ->
  let save := EvPlt "savefig" [VStr (p2_path a); VKw "dpi" (VInt 300)] in
  (p2_save a = false -> tr = [] /\ r = Ok tt)
  /\ (p2_save a = true ->
      tr = [save]
      /\ (failure E [] save = None -> r = Ok tt)
      /\ (forall e, failure E [] save = Some e -> r = Raise e)).
Proof.
  intros Hmode Hrun. rewrite (plot_2d_unknown_mode_run E a Hmode) in Hrun.
  cbv zeta. split; intros Hsave; rewrite Hsave in Hrun.
  - by simplify_eq.
  - unfold do_, plt, mbind, SR_bind, mret, SR_ret in Hrun. simpl in *.
    destruct (plt_call E [] "savefig" _) as [v|e]; simplify_eq/=;
      repeat split; intros; congruence.
Qed.

Lemma plot_2d_unknown_mode_witness :
  let a := plot_2d_defaults "scatter" in
  let save := EvPlt "savefig" [VStr (p2_path a); VKw "dpi" (VInt 300)] in
  (p2_save a = false -> @nil (event Z) = [] /\ Ok tt = Ok tt)
  /\ (p2_save a = true ->
      [] = [save]
      /\ (failure stub_env [] save = None -> Ok tt = Ok tt)
      /\ (forall e, failure stub_env [] save = Some e -> Ok tt = Raise e)).
Proof.
  apply (plot_2d_unknown_mode stub_env (plot_2d_defaults "scatter")).
  - rewrite !not_elem_of_cons. repeat split; try discriminate.
    apply not_elem_of_nil.
  - reflexivity.
Defined.

(** C3, as the claim has it, fails: asked to save, [plot_2d] calls the
    plotting library on an unknown mode as well, and when the figure cannot
    be written the call raises. *)
Lemma plot_2d_unknown_mode_counterexample :
  ~ (forall (E : env Z) (a : plot_2d_args Z) r tr,
       p2_mode a ∉ ["imshow"; "contourf"; "3d_view"] ->
       plot_2d E a [] = (r, tr) ->
       Forall (fun ev => is_library_call ev = false) tr /\ r = Ok tt).
Proof.
  intros Hclaim.
  destruct (Hclaim failing_save_env
              {| p2_mode := "scatter"; p2_fetches := VNone; p2_grid := None;
                 p2_cmap := "viridis"; p2_title := "title";
                 p2_xlim := (0, 1)%Z; p2_ylim := (0, 1)%Z;
                 p2_num_points := None; p2_save := true;
                 p2_path := "/no/such/dir/approximation.png" |}
              (Raise save_error)
              [EvPlt "savefig" [VStr "/no/such/dir/approximation.png";
                                VKw "dpi" (VInt 300)]])
    as [Hquiet Hr].
  - simpl. rewrite !not_elem_of_cons. repeat split; try discriminate.
    apply not_elem_of_nil.
  - reflexivity.
  - discriminate Hr.
Qed.

(** C10.  In the ['contourf'] and ['3d_view'] modes with a grid of the
    caller's, [plot_2d] calls [model.solve] on that grid and then fails
    before any call of the plotting library: the locals [xs] and [ys] that
    shape the solved values are assigned only when no grid is given, so
    reading [xs] raises [UnboundLocalError] (whenever [solve] itself
    returned; otherwise the exception of [solve] is what ends the call). *)
Theorem plot_2d_given_grid_unbound {F} `{Scalar F} (E : env F)
    (a : plot_2d_args F) g :
  p2_mode a ∈ ["contourf"; "3d_view"] ->
  p2_grid a = Some g ->
  exists e,
    plot_2d E a [] = (Raise e, [EvSolve g None])
    /\ (failure E [] (EvSolve g None) = None ->
        e = Exn "UnboundLocalError" "xs")
    /\ contour_grid a = Ok (g, MeshLocals None None None None).
Proof.
  intros Hmode Hgrid. rewrite (plot_2d_given_grid_run E a g Hmode Hgrid).
  unfold contour_grid. rewrite Hgrid. simpl.
  destruct (model_solve E [] g None) as [sol|e]; eexists; eauto.
  split_and!; [done| |done]. done.
Qed.

Lemma plot_2d_given_grid_unbound_witness :
  exists e,
    plot_2d stub_env
      {| p2_mode := "contourf"; p2_fetches := VNone;
         p2_grid := Some (NdArray [2; 2] [0; 0; 1; 1]%Z);
         p2_cmap := "viridis"; p2_title := "title";
         p2_xlim := (0, 1)%Z; p2_ylim := (0, 1)%Z;
         p2_num_points := None; p2_save := false;
         p2_path := "approximation.png" |} []
    = (Raise e, [EvSolve (NdArray [2; 2] [0; 0; 1; 1]%Z) None])
    /\ (failure stub_env [] (EvSolve (NdArray [2; 2] [0; 0; 1; 1]%Z) None) = None ->
        e = Exn "UnboundLocalError" "xs")
    /\ contour_grid {| p2_mode := "contourf"; p2_fetches := VNone;
         p2_grid := Some (NdArray [2; 2] [0; 0; 1; 1]%Z);
         p2_cmap := "viridis"; p2_title := "title";
         p2_xlim := (0, 1)%Z; p2_ylim := (0, 1)%Z;
         p2_num_points := None; p2_save := false;
         p2_path := "approximation.png" |}
       = Ok (NdArray [2; 2] [0; 0; 1; 1]%Z, MeshLocals None None None None).
Proof.
  apply (plot_2d_given_grid_unbound stub_env
           {| p2_mode := "contourf"; p2_fetches := VNone;
              p2_grid := Some (NdArray [2; 2] [0; 0; 1; 1]%Z);
              p2_cmap := "viridis"; p2_title := "title";
              p2_xlim := (0, 1)%Z; p2_ylim := (0, 1)%Z;
              p2_num_points := None; p2_save := false;
              p2_path := "approximation.png" |}).
  - simpl. apply list_elem_of_here.
  - reflexivity.
Defined.



End Plot2d.

(** ** Properties of [plot_pair_1d] *)

Module PlotPair1d.
Import Numpy NumpyFacts Plots SRFacts PlotFacts Stubs.

Section Script.
Context {F : Type} `{Scalar F}.
Variable E : env F.





End Script.



End PlotPair1d.

(** ** Properties of the section plots *)

Module Sections.
Import Numpy NumpyFacts Plots SRFacts PlotFacts Stubs.

Section Columns.
Context {A : Type}.
Implicit Types (a : ndarray A) (l : list A).

Lemma rows_column l : rows (column l) = (fun x => [x]) <$> l.
Proof.
  pose proof (rows_join ((fun x => [x]) <$> l) 1) as Hj.
  rewrite join_singletons, length_fmap in Hj.
  apply Hj, Forall_fmap, Forall_forall. done.
Qed.

Lemma join_replicate_singleton n (x : A) :
  mjoin (replicate n [x]) = replicate n x.
Proof. induction n as [|n IH]; [done|]. simpl. by rewrite IH. Qed.

Lemma rows_full_col n (x : A) : rows (full_col n x) = replicate n [x].
Proof.
  pose proof (rows_join (replicate n [x]) 1) as Hj.
  rewrite join_replicate_singleton, length_replicate in Hj.
  apply Hj, Forall_replicate. done.
Qed.

(** A well-shaped matrix has [r] rows of [c] entries each. *)
Lemma rows_well_shaped a r c :
  shape a = [r; c] -> well_shaped a ->
  length (rows a) = r /\ Forall (fun row => length row = c) (rows a).
Proof.
  intros Hs Hw. unfold well_shaped in Hw. unfold rows.
  rewrite Hs in *. simpl in Hw.
  split; [by rewrite length_fmap, length_seq|].
  apply Forall_fmap, Forall_forall. intros i Hi%elem_of_seq. simpl.
  rewrite length_take, length_drop. nia.
Qed.

(** Concatenating a constant column to a well-shaped matrix extends every
    row by that constant. *)
Lemma concatenate_full_col a r c (x : A) :
  shape a = [r; c] -> well_shaped a ->
  exists p,
    concatenate_axis1 a (full_col r x) = Ok p
    /\ shape p = [r; c + 1]
    /\ rows p = (fun row => row ++ [x]) <$> rows a.
Proof.
  intros Hs Hw. destruct (rows_well_shaped a r c Hs Hw) as [Hlen Hrows].
  unfold concatenate_axis1. rewrite Hs. cbn [shape full_col].
  rewrite Nat.eqb_refl. eexists. split_and!; [done|done|].
  rewrite rows_full_col, zip_with_replicate_r_eq by done.
  pose proof (rows_join (flip app [x] <$> rows a) (c + 1)) as Hj.
  rewrite length_fmap, Hlen in Hj. apply Hj, Forall_fmap.
  eapply Forall_impl; [exact Hrows|].
  intros row Hrow. simpl. rewrite length_app, Hrow. done.
Qed.

End Columns.

Section TimeSections.
Context {F : Type} `{Scalar F}.

Lemma scale_ones (t : F) n : scale t (np_ones_col n) = full_col n t.
Proof.
  unfold scale, np_ones_col, amap, full_col. simpl.
  by rewrite fmap_replicate, fmul_one.
Qed.

Lemma section_points_3d_time_section (grid : ndarray F) t :
  section_points_3d grid t = time_section grid t.
Proof.
  unfold section_points_3d, time_section, with_time.
  destruct (shape0 grid); [|done]. simpl. by rewrite scale_ones.
Qed.

Lemma section_points_2d_time_section (points p : ndarray F) t :
  section_points_2d points t = Ok p ->
  time_section (column (data points)) t = Ok p.
Proof.
  unfold section_points_2d, time_section, with_time, reshape_rows.
  cbn [Nat.eqb]. rewrite Nat.mod_1_r, Nat.div_1_r. cbn [Nat.eqb].
  cbn [mbind result_bind]. fold (column (data points)).
  destruct (shape0 points) as [n|]; [|done]. cbn [mbind result_bind].
  rewrite scale_ones. unfold concatenate_axis1, column, shape0.
  cbn [shape full_col mbind result_bind].
  destruct (Nat.eqb_spec (length (data points)) n) as [->|]; [|done].
  by rewrite Nat.eqb_refl.
Qed.

(** What a time section of a well-shaped matrix is. *)
Lemma time_section_rows (grid p : ndarray F) r c t :
  shape grid = [r; c] -> well_shaped grid ->
  time_section grid t = Ok p ->
  rows p = (fun row => row ++ [t]) <$> rows grid.
Proof.
  intros Hs Hw. unfold time_section, shape0. rewrite Hs.
  cbn [mbind result_bind].
  destruct (concatenate_full_col grid r c t Hs Hw) as (p' & -> & _ & Hrows).
  by intros [= <-].
Qed.

End TimeSections.

(** *** Loops that solve once per round *)

Section Loop.
Context {F : Type} `{Scalar F} {X : Type}.
Variable body : X -> M F unit.
Variable good : X -> ndarray F * option (value F) -> Prop.

Lemma mapM_solve_calls :
  one_solve_step body good ->
  forall l tr0 r tr1,
    mapM body l tr0 = (r, tr1) ->
    exists cs,
      solve_calls tr1 = solve_calls tr0 ++ cs
      /\ Forall2 good (take (length cs) l) cs
      /\ (is_ok r = true -> length cs = length l).
Proof.
  intros Hstep l. induction l as [|x l IH]; intros tr0 r tr1 Hrun.
  - injection Hrun as <- <-. exists []. by rewrite app_nil_r.
  - cbn [mapM] in Hrun. rewrite bind_run in Hrun.
    destruct (body x tr0) as [[[]|e] tr'] eqn:Hbody.
    + destruct (Hstep _ _ _ _ Hbody) as [[_ Hr]|(c & Hc & Hgood)]; [done|].
      rewrite bind_run in Hrun.
      destruct (mapM body l tr') as [[us|e] tr''] eqn:Hrest.
      * injection Hrun as <- <-.
        destruct (IH _ _ _ Hrest) as (cs & Hcs & Hall & Hlen).
        exists (c :: cs). split_and!.
        -- rewrite Hcs, Hc, <- app_assoc. done.
        -- simpl. by constructor.
        -- intros _. simpl. by rewrite Hlen.
      * injection Hrun as <- <-.
        destruct (IH _ _ _ Hrest) as (cs & Hcs & Hall & Hlen).
        exists (c :: cs). split_and!; [|simpl; by constructor|done].
        rewrite Hcs, Hc, <- app_assoc. done.
    + injection Hrun as <- <-.
      destruct (Hstep _ _ _ _ Hbody) as [[Hc _]|(c & Hc & Hgood)].
      * exists []. by rewrite app_nil_r.
      * exists [c]. split_and!; [done| |done]. simpl. rewrite take_0.
        by repeat constructor.
Qed.

End Loop.

Section Enumerate.
Context {X : Type}.

Lemma snd_enumerate (l : list X) : (enumerate l).*2 = l.
Proof. unfold enumerate. apply snd_zip. by rewrite length_seq. Qed.

Lemma length_enumerate (l : list X) : length (enumerate l) = length l.
Proof. by rewrite <- (snd_enumerate l) at 2; rewrite length_fmap. Qed.

Lemma Forall2_take_enumerate {Y} (P : X -> Y -> Prop) (l : list X) k cs :
  Forall2 (fun it c => P it.2 c) (take k (enumerate l)) cs ->
  Forall2 P (take k l) cs.
Proof.
  intros Hall. rewrite <- (snd_enumerate l), <- fmap_take.
  by apply Forall2_fmap_l.
Qed.

End Enumerate.

Section Rounds.
Context {F : Type} `{Scalar F}.
Variable E : env F.

Lemma method_bind_run {Y} obj meth args (k : value F -> M F Y) tr :
  (method E obj meth args ≫= k) tr
  = match method_call E tr obj meth args with
    | Ok x => k x (tr ++ [EvMethod obj meth args])
    | Raise e => (Raise e, tr ++ [EvMethod obj meth args])
    end.
Proof.
  rewrite bind_run. unfold method.
  by destruct (method_call E tr obj meth args).
Qed.

Lemma solve_calls_snoc_library (tr : trace F) ev :
  is_library_call ev = true -> solve_calls (tr ++ [ev]) = solve_calls tr.
Proof.
  intros Hev. rewrite solve_calls_app, (solve_calls_library [ev]).
  - apply app_nil_r.
  - by constructor.
Qed.

Lemma solve_calls_snoc_solve (tr : trace F) p f :
  solve_calls (tr ++ [EvSolve p f]) = solve_calls tr ++ [(p, f)].
Proof. by rewrite solve_calls_app. Qed.

(** After the calls [tr0] a computation that only talks to the plotting
    library leaves the calls of [model.solve] as they are. *)
Lemma library_run_solve_calls {X} (m : M F X) tr0 r tr1 :
  emits (fun ev => is_library_call ev = true) m ->
  m tr0 = (r, tr1) -> solve_calls tr1 = solve_calls tr0.
Proof.
  intros Hm Hrun. destruct (Hm _ _ _ Hrun) as (ext & -> & Hext).
  rewrite solve_calls_app, (solve_calls_library ext Hext). apply app_nil_r.
Qed.

(** One round of [plot_sections_2d], lines 115-119. *)
Lemma section_2d_step (a : sections_2d_args F) axes points :
  one_solve_step (section_2d E a axes points)
    (fun it c => section_points_2d points it.2 = Ok c.1
                 /\ c.2 = Some (s2_fetches a)).
Proof.
  intros [i t] tr0 r tr1 Hrun. unfold section_2d in Hrun.
  rewrite lift_bind_run in Hrun.
  destruct (section_points_2d points t) as [points_|e] eqn:Hp.
  2:{ left. by injection Hrun as <- <-. }
  rewrite lift_bind_run in Hrun.
  destruct (divmod _ _) as [[wx wy]|e].
  2:{ left. by injection Hrun as <- <-. }
  rewrite method_bind_run in Hrun.
  destruct (method_call E tr0 _ _ _) as [ax|e].
  2:{ left. injection Hrun as <- <-. by rewrite solve_calls_snoc_library. }
  rewrite solve_bind_run in Hrun. right. exists (points_, Some (s2_fetches a)).
  split; [|done].
  destruct (model_solve E _ _ _) as [sol|e].
  2:{ injection Hrun as <- <-.
      by rewrite solve_calls_snoc_solve, solve_calls_snoc_library. }
  apply library_run_solve_calls in Hrun; [|unfold do_; emit].
  by rewrite Hrun, solve_calls_snoc_solve, solve_calls_snoc_library.
Qed.

(** One round of [plot_sections_3d], lines 153-173. *)
Lemma section_3d_step (a : sections_3d_args F) fig xs ys grid xs_ ys_ :
  one_solve_step (section_3d E a fig xs ys grid xs_ ys_)
    (fun it c => section_points_3d grid it.2 = Ok c.1 /\ c.2 = None).
Proof.
  intros [i t] tr0 r tr1 Hrun. unfold section_3d in Hrun. cbv zeta in Hrun.
  rewrite lift_bind_run in Hrun.
  destruct (section_points_3d grid t) as [grid_|e] eqn:Hp.
  2:{ left. by injection Hrun as <- <-. }
  destruct (bool_decide (s3_mode a = "3d_view")).
  all: rewrite method_bind_run in Hrun.
  all: destruct (method_call E tr0 _ _ _) as [ax|e];
    [|left; injection Hrun as <- <-; by rewrite solve_calls_snoc_library].
  all: rewrite solve_bind_run in Hrun.
  all: right; exists (grid_, None); split; [|done].
  all: destruct (model_solve E _ _ _) as [sol|e];
    [|injection Hrun as <- <-;
      by rewrite solve_calls_snoc_solve, solve_calls_snoc_library].
  all: apply library_run_solve_calls in Hrun; [|unfold do_; emit].
  all: by rewrite Hrun, solve_calls_snoc_solve, solve_calls_snoc_library.
Qed.

(** The calls of [model.solve] that a run of [plot_sections_2d] makes. *)
Lemma sections_2d_points_ok (a : sections_2d_args F) :
  exists points, sections_2d_points a = Ok points.
Proof.
  unfold sections_2d_points. destruct (s2_points a) as [p|]; [by eauto|].
  unfold np_linspace. change (100 <? 0)%Z with false.
  cbn [mbind result_bind]. unfold reshape_rows. cbn [Nat.eqb data].
  rewrite Nat.mod_1_r. cbn [Nat.eqb]. by eauto.
Qed.

Lemma plot_sections_2d_solve_calls (a : sections_2d_args F) points r tr :
  sections_2d_points a = Ok points ->
  plot_sections_2d E a [] = (r, tr) ->
  Forall2 (fun it c => section_points_2d points it.2 = Ok c.1
                       /\ c.2 = Some (s2_fetches a))
          (take (length (solve_calls tr)) (enumerate (s2_timestamps a)))
          (solve_calls tr)
  /\ (r = Ok tt -> length (solve_calls tr) = length (s2_timestamps a)).
Proof.
  intros Hp Hrun. unfold plot_sections_2d in Hrun. cbv zeta in Hrun.
  rewrite lift_bind_run, Hp, plt_bind_run in Hrun.
  destruct (plt_call E [] _ _) as [v|e].
  2:{ injection Hrun as <- <-. split; [constructor|done]. }
  rewrite lift_bind_run in Hrun.
  destruct (unpack2 v) as [[fig axes]|e].
  2:{ injection Hrun as <- <-. split; [constructor|done]. }
  rewrite bind_run in Hrun. unfold forM_ in Hrun. rewrite bind_run in Hrun.
  destruct (mapM _ _ _) as [[us|e] tr'] eqn:Hloop.
  - destruct (mapM_solve_calls _ _ (section_2d_step a axes points) _ _ _ _ Hloop)
      as (cs & Hcs & Hall & Hlen).
    unfold mret, SR_ret in Hrun.
    apply library_run_solve_calls in Hrun;
      [|unfold savefig, when, do_; emit].
    rewrite Hrun, Hcs. simpl. split; [done|].
    intros _. by rewrite Hlen, length_enumerate.
  - injection Hrun as <- <-.
    destruct (mapM_solve_calls _ _ (section_2d_step a axes points) _ _ _ _ Hloop)
      as (cs & Hcs & Hall & Hlen).
    rewrite Hcs. simpl. done.
Qed.

(** The calls of [model.solve] that a run of [plot_sections_3d] makes. *)
Lemma plot_sections_3d_solve_calls (a : sections_3d_args F)
    xs ys grid mesh r tr :
  sections_3d_grid a = Ok (xs, ys, grid, mesh) ->
  plot_sections_3d E a [] = (r, tr) ->
  Forall2 (fun it c => section_points_3d grid it.2 = Ok c.1 /\ c.2 = None)
          (take (length (solve_calls tr)) (enumerate (s3_timestamps a)))
          (solve_calls tr)
  /\ (r = Ok tt -> length (solve_calls tr) = length (s3_timestamps a)).
Proof.
  intros Hg Hrun. unfold plot_sections_3d in Hrun. cbv zeta in Hrun.
  rewrite lift_bind_run, Hg in Hrun. destruct mesh as [xs_ ys_].
  rewrite plt_bind_run in Hrun.
  destruct (plt_call E [] _ _) as [fig|e].
  2:{ injection Hrun as <- <-. split; [constructor|done]. }
  rewrite bind_run in Hrun. unfold forM_ in Hrun. rewrite bind_run in Hrun.
  destruct (mapM _ _ _) as [[us|e] tr'] eqn:Hloop.
  - destruct (mapM_solve_calls _ _
                (section_3d_step a fig xs ys grid xs_ ys_) _ _ _ _ Hloop)
      as (cs & Hcs & Hall & Hlen).
    unfold mret, SR_ret in Hrun.
    apply library_run_solve_calls in Hrun;
      [|unfold savefig, when, do_; emit].
    rewrite Hrun, Hcs. simpl. split; [done|].
    intros _. by rewrite Hlen, length_enumerate.
  - injection Hrun as <- <-.
    destruct (mapM_solve_calls _ _
                (section_3d_step a fig xs ys grid xs_ ys_) _ _ _ _ Hloop)
      as (cs & Hcs & Hall & Hlen).
    rewrite Hcs. simpl. done.
Qed.

(** The spatial grid of [plot_sections_3d] is a well-shaped matrix. *)
Lemma sections_3d_grid_shape (a : sections_3d_args F) xs ys grid mesh :
  sections_3d_grid a = Ok (xs, ys, grid, mesh) ->
  exists r, shape grid = [r; 2] /\ well_shaped grid
            /\ rows grid = nested_loops [data xs; data ys].
Proof.
  unfold sections_3d_grid. cbv zeta.
  destruct (np_linspace (s3_xlim a).1 _ _) as [xs'|];
    cbn [mbind result_bind]; [|done].
  destruct (np_linspace (s3_ylim a).1 _ _) as [ys'|];
    cbn [mbind result_bind]; [|done].
  rewrite cart_prod_spec by done. cbn [mbind result_bind].
  pose proof (rows_cart_prod [data xs'; data ys'] ltac:(done)) as Hrows.
  pose proof (length_join_uniform _ 2
                (nested_loops_row_length [data xs'; data ys'])) as Hlen.
  rewrite length_nested_loops in Hlen.
  remember (nested_loops [data xs'; data ys']) as L eqn:HL.
  intros [= <- <- <- <-]. eexists. split_and!.
  - reflexivity.
  - unfold well_shaped. cbn [data shape]. rewrite Hlen. simpl. lia.
  - rewrite <- HL. exact Hrows.
Qed.

End Rounds.

(** C5.  In every run of [plot_sections_2d] and of [plot_sections_3d] the
    calls of [model.solve] go through the timestamps in order, one call
    per timestamp, each on the shared spatial grid (the points as a column;
    the Cartesian grid of the two axes) extended by one column that holds
    the timestamp in every row.  A run that returns has made this call for
    every timestamp: exactly once per timestamp.  A run that raises has
    made it for an initial segment of the timestamps. *)
Theorem sections_solve_per_timestamp {F} `{Scalar F} (E : env F) :
  (forall (a : sections_2d_args F) r tr,
     plot_sections_2d E a [] = (r, tr) ->
     exists points,
       sections_2d_points a = Ok points
       /\ Forall2 (section_call (column (data points)) (Some (s2_fetches a)))
                  (take (length (solve_calls tr)) (s2_timestamps a))
                  (solve_calls tr)
       /\ (r = Ok tt -> length (solve_calls tr) = length (s2_timestamps a)))
  /\ (forall (a : sections_3d_args F) xs ys grid mesh r tr,
        sections_3d_grid a = Ok (xs, ys, grid, mesh) ->
        plot_sections_3d E a [] = (r, tr) ->
        grid_rows_of xs ys grid
        /\ Forall2 (section_call grid None)
                   (take (length (solve_calls tr)) (s3_timestamps a))
                   (solve_calls tr)
        /\ (r = Ok tt -> length (solve_calls tr) = length (s3_timestamps a))).
Proof.
  split.
  - intros a r tr Hrun.
    destruct (sections_2d_points_ok a) as [points Hp].
    exists points. split; [done|].
    destruct (plot_sections_2d_solve_calls E a points r tr Hp Hrun)
      as [Hall Hlen].
    split; [|done].
    apply Forall2_take_enumerate.
    eapply Forall2_impl; [exact Hall|].
    intros [i t] [p f] [Hpt Hf]. simpl in *.
    apply section_points_2d_time_section in Hpt.
    split_and!; [done| |done].
    eapply time_section_rows; [| |exact Hpt]; [done|].
    unfold well_shaped. simpl. lia.
  - intros a xs ys grid mesh r tr Hg Hrun.
    destruct (sections_3d_grid_shape a xs ys grid mesh Hg)
      as (n & Hshape & Hw & Hrows).
    destruct (plot_sections_3d_solve_calls E a xs ys grid mesh r tr Hg Hrun)
      as [Hall Hlen].
    split_and!; [done| |done].
    apply Forall2_take_enumerate.
    eapply Forall2_impl; [exact Hall|].
    intros [i t] [p f] [Hpt Hf]. simpl in *.
    rewrite section_points_3d_time_section in Hpt.
    split_and!; [done| |done].
    by eapply time_section_rows.
Qed.

Lemma sections_solve_per_timestamp_witness :
  (exists points,
     sections_2d_points sections_2d_example = Ok points
     /\ Forall2 (section_call (column (data points)) (Some VNone))
                [0; 2; 4]%Z
                (solve_calls (plot_sections_2d stub_env sections_2d_example []).2)
     /\ length (solve_calls (plot_sections_2d stub_env sections_2d_example []).2)
        = 3)
  /\ (Forall2 (section_call (NdArray [4; 2] [0; 0; 0; 1; 1; 0; 1; 1]%Z) None)
              [0; 5]%Z
              (solve_calls (plot_sections_3d stub_env sections_3d_example []).2)
      /\ length (solve_calls (plot_sections_3d stub_env sections_3d_example []).2)
         = 2).
Proof.
  destruct (sections_solve_per_timestamp stub_env) as [H2 H3]. split.
  - destruct (H2 sections_2d_example (Ok tt)
                (plot_sections_2d stub_env sections_2d_example []).2 eq_refl)
      as (points & Hp & Hall & Hlen).
    exists points. split; [exact Hp|].
    rewrite (Hlen eq_refl) in Hall. split; [exact Hall|exact (Hlen eq_refl)].
  - destruct (H3 sections_3d_example
                (NdArray [2] [0; 1]%Z) (NdArray [2] [0; 1]%Z)
                (NdArray [4; 2] [0; 0; 0; 1; 1; 0; 1; 1]%Z)
                (NdArray [2; 2] [0; 1; 0; 1]%Z, NdArray [2; 2] [0; 0; 1; 1]%Z)
                (Ok tt)
                (plot_sections_3d stub_env sections_3d_example []).2
                eq_refl eq_refl)
      as (_ & Hall & Hlen).
    rewrite (Hlen eq_refl) in Hall. split; [exact Hall|exact (Hlen eq_refl)].
Defined.

End Sections.

(** ** No plotting procedure handles an exception *)

Module Errors.
Import Numpy Plots SRFacts PlotFacts Stubs.

(** C8.  Whichever of the five plotting procedures is called, and with
    whatever arguments: when a call to a collaborator (the model's
    [solve], the ground-truth [solution], a function or method of the
    plotting library) raises, the procedure makes no further call and the
    same exception is the outcome of the procedure.  Nothing is caught,
    retried or replaced. *)
Theorem errors_propagate {F} `{Scalar F} (E : env F) (c : plot_call F)
    r tr pre ev post e :
  run_plot E c [] = (r, tr) ->
  tr = pre ++ ev :: post ->
  failure E pre ev = Some e ->
  r = Raise e /\ post = [].
Proof.
  intros Hrun Htr Hfail.
  destruct (propagating_run_plot E c _ _ _ Hrun) as (ext & Hext & Hprop).
  simpl in Hext. subst ext.
  by destruct (Hprop pre ev post e Htr Hfail).
Qed.

Lemma errors_propagate_witness :
  @Raise unit solve_error = Raise solve_error /\ @nil (event Z) = [].
Proof.
  apply (errors_propagate failing_model_env
           (PlotSections2d
              {| s2_timestamps := [0; 2; 4]%Z; s2_grid_size := (2, 3)%Z;
                 s2_points := Some (NdArray [2; 1] [0; 1]%Z);
                 s2_fetches := VNone;
                 s2_xlim := (0, 1)%Z; s2_ylim := (0, 1)%Z;
                 s2_title := "title"; s2_save := true;
                 s2_path := "sections.png" |})
           (Raise solve_error)
           [EvPlt "subplots" [VInt 2; VInt 3;
                              VKw "figsize" (VPair (VInt 15) (VInt 5))];
            EvMethod (VObj 1) "__getitem__" [VInt 0; VInt 0];
            EvSolve (NdArray [2; 2] [0; 0; 1; 0]%Z) (Some VNone)]
           [EvPlt "subplots" [VInt 2; VInt 3;
                              VKw "figsize" (VPair (VInt 15) (VInt 5))];
            EvMethod (VObj 1) "__getitem__" [VInt 0; VInt 0]]
           (EvSolve (NdArray [2; 2] [0; 0; 1; 0]%Z) (Some VNone))
           [] solve_error); reflexivity.
Defined.

End Errors.

(** ** More about [cart_prod] *)

Module CartProdMore.
Import Numpy NumpyFacts.

Section Product.
Context {A : Type}.
Implicit Types (a row : list A) (arrs : list (list A)).




Lemma size_of_zero (ns : list nat) : 0 ∈ ns -> size_of ns = 0.
Proof.
  induction ns as [|n ns IH]; [by intros ?%elem_of_nil|].
  rewrite elem_of_cons, size_of_cons. intros [<-|Hin]; [done|].
  rewrite IH by done. lia.
Qed.



(** Two axes: row [i * n + j] pairs the [i]-th element of the first axis
    with the [j]-th element of the second. *)
Lemma nested_loops_pair_lookup (xs ys : list A) i j x y :
  xs !! i = Some x -> ys !! j = Some y ->
  nested_loops [xs; ys] !! (i * length ys + j) = Some [x; y].
Proof.
  intros Hx Hy.
  change (nested_loops [xs; ys]) with (x ← xs; cons x <$> nested_loops [ys]).
  rewrite nested_loops_single.
  assert (Hj : j < length ys) by (by eapply lookup_lt_Some).
  revert i Hx. induction xs as [|x0 xs IH]; intros i Hx; [done|].
  rewrite bind_cons. destruct i as [|i]; simplify_eq/=.
  - rewrite lookup_app_l by (by rewrite !length_fmap).
    by rewrite !list_lookup_fmap, Hy.
  - rewrite lookup_app_r by (rewrite !length_fmap; lia).
    rewrite !length_fmap.
    replace (length ys + i * length ys + j - length ys)
      with (i * length ys + j) by lia.
    by apply IH.
Qed.

End Product.










(** X6.  An empty input is no error: the grid then has no rows (and still
    one column per input). *)
Theorem cart_prod_empty_input {A} (arrs : list (list A)) :
  [] ∈ arrs ->
  exists out,
    cart_prod arrs = Ok out
    /\ shape out = [0; length arrs]
    /\ rows out = []
    /\ data out = [].
Proof.
  intros Hin.
  assert (Hne : arrs <> []) by (intros ->; by apply elem_of_nil in Hin).
  assert (Hz : size_of (length <$> arrs) = 0).
  { apply size_of_zero. apply list_elem_of_fmap. by exists []. }
  assert (Hnl : nested_loops arrs = []).
  { apply length_zero_iff_nil. by rewrite length_nested_loops. }
  eexists. split; [by apply cart_prod_spec|].
  rewrite rows_cart_prod, Hnl, Hz by done. done.
Qed.

Lemma cart_prod_empty_input_witness :
  exists out,
    cart_prod [[1; 2]; []; [3]]%Z = Ok out
    /\ shape out = [0; 3]
    /\ rows out = []
    /\ data out = [].
Proof.
  apply (cart_prod_empty_input [[1; 2]; []; [3]]%Z).
  apply list_elem_of_further, list_elem_of_here.
Defined.

End CartProdMore.

(** ** What [cart_prod] allocates *)

Module HeapMore.
Import Numpy NumpyFacts NumpyHeap SRFacts HeapFacts.

(** X7.  A call of [cart_prod] with [k >= 1] inputs, whose grid has [N]
    rows, returns and allocates exactly [k + 1] arrays: the [k] dense
    grids of [np.meshgrid], of [N] elements each, and the stacked array
    of [N * k] elements.  The result is a view of the stacked array, the
    last allocation: the reshape copies nothing. *)
Theorem cart_prod_allocation {A} (h : store A) (arrs : list aref)
    (ds : list (list A)) :
  holds h arrs ds ->
  ds <> [] ->
  let N := size_of (length <$> ds) in
  let k := length ds in
  exists r grids out,
    h_cart_prod arrs h = (Ok r, h ++ grids ++ [out])
    /\ length grids = k
    /\ Forall (fun g => length g = N) grids
    /\ length out = N * k
    /\ buf r = length h + k
    /\ ashape r = [N; k].
Proof.
  intros Hin Hne N k.
  rewrite (h_cart_prod_eq _ _ _ Hin). cbv zeta.
  pose proof (cart_prod_spec ds Hne) as Hspec. unfold cart_prod in Hspec.
  cbv zeta in Hspec.
  destruct (np_stack_last (meshgrid_ij ds)) as [stacked|e]; [|done].
  cbn [mbind result_bind] in Hspec.
  pose proof (reshape_rows_data _ _ _ Hspec) as Hdata. cbn [data] in Hdata.
  rewrite Hspec. cbn [mbind result_bind mret result_ret shape].
  exists (ARef (length (h ++ (data <$> meshgrid_ij ds))) [N; k]),
    (data <$> meshgrid_ij ds), (data stacked).
  split_and!.
  - by rewrite <- app_assoc.
  - by rewrite length_fmap, length_meshgrid.
  - apply meshgrid_data_length.
  - rewrite <- Hdata.
    rewrite (length_join_uniform _ k (nested_loops_row_length ds)).
    by rewrite length_nested_loops.
  - cbn [buf]. by rewrite length_app, length_fmap, length_meshgrid.
  - done.
Qed.

Lemma cart_prod_allocation_witness :
  let h := [[1; 2]; [7]; [10; 20; 30]]%Z in
  let arrs := [ARef 0 [2]; ARef 2 [3]] in
  exists r grids out,
    h_cart_prod arrs h = (Ok r, h ++ grids ++ [out])
    /\ length grids = 2
    /\ Forall (fun g => length g = 6) grids
    /\ length out = 6 * 2
    /\ buf r = 3 + 2
    /\ ashape r = [6; 2].
Proof.
  intros h arrs.
  apply (cart_prod_allocation h arrs [[1; 2]; [10; 20; 30]]%Z).
  - repeat constructor.
  - discriminate.
Defined.

End HeapMore.

(** ** More about [plot_2d] *)

Module Plot2dMore.
Import Numpy NumpyFacts Plots SRFacts PlotFacts Stubs Plot2d PlotReadings.

Section Modes.
Context {F : Type} `{Scalar F}.
Variable E : env F.

Lemma reshape2_square (sol : ndarray F) (n : Z) :
  (0 <= n)%Z ->
  reshape2 sol n n
  = if decide (length (data sol) = Z.to_nat (n * n))
    then Ok (NdArray [Z.to_nat n; Z.to_nat n] (data sol))
    else Raise (Exn "ValueError" "cannot reshape array into this shape").
Proof.
  intros Hn. unfold reshape2.
  destruct (Z.ltb_spec n (-1)); [lia|]. cbn [orb].
  destruct (Z.eqb_spec n (-1)); [lia|]. cbn [andb].
  destruct (Z.eqb_spec (n * n) (Z.of_nat (length (data sol))));
    destruct (decide _); try done; lia.
Qed.

(** The run of the image mode on a grid of the caller's, up to the
    reshape on line 59. *)
Lemma plot_2d_imshow_given_grid_run (a : plot_2d_args F) g :
  p2_mode a = "imshow" ->
  p2_grid a = Some g ->
  plot_2d E a []
  = match model_solve E [] g (Some (p2_fetches a)) with
    | Raise e => (Raise e, [EvSolve g (Some (p2_fetches a))])
    | Ok approxs =>
        ((img ← lift match p2_num_points a with
                     | Some n => reshape2 approxs n n
                     | None => Raise (Exn "TypeError"
                                 "'NoneType' object cannot be interpreted as an integer")
                     end;
          do_ (plt E "imshow" [VArr img; VKw "cmap" (VStr (p2_cmap a))]))
           ≫= fun _ =>
             when (bool_decide ("imshow" ∈ ["imshow"; "contourf"]))
               (plt E "title" [VStr (p2_title a); VKw "fontdict" (VFontsize 17)];;
                do_ (plt E "colorbar" []));;
             savefig E (p2_save a) (p2_path a);;
             when (bool_decide ("imshow" ∈ ["3d_view"; "contourf"]))
               (do_ (plt E "show" [])))
          [EvSolve g (Some (p2_fetches a))]
    end.
Proof.
  intros Hmode Hgrid. unfold plot_2d. cbv zeta.
  rewrite Hmode, (bool_decide_eq_true_2 ("imshow" = "imshow")) by done.
  rewrite bind_assoc_run, lift_bind_run. unfold imshow_grid. rewrite Hgrid.
  rewrite bind_assoc_run, solve_bind_run. done.
Qed.

End Modes.

(** X8.  In the ['imshow'] mode with a grid of the caller's and
    [num_points] left at [None], [plot_2d] calls [model.solve] on that grid
    and then fails before any call of the plotting library: the reshape on
    line 59 is given [None] and raises [TypeError] (whenever [solve] itself
    returned; otherwise the exception of [solve] ends the call). *)
Theorem plot_2d_imshow_grid_needs_num_points {F} `{Scalar F} (E : env F)
    (a : plot_2d_args F) g :
  p2_mode a = "imshow" ->
  p2_grid a = Some g ->
  p2_num_points a = None ->
  exists e,
    plot_2d E a [] = (Raise e, [EvSolve g (Some (p2_fetches a))])
    /\ (failure E [] (EvSolve g (Some (p2_fetches a))) = None ->
        e = Exn "TypeError"
                "'NoneType' object cannot be interpreted as an integer").
Proof.
  intros Hmode Hgrid Hnum.
  rewrite (plot_2d_imshow_given_grid_run E a g Hmode Hgrid), Hnum. simpl.
  destruct (model_solve E [] g _) as [sol|e]; eexists; split; try done.
Qed.

Lemma plot_2d_imshow_grid_needs_num_points_witness :
  let a := {| p2_mode := "imshow"; p2_fetches := VNone;
              p2_grid := Some (NdArray [4; 2] [0; 0; 0; 1; 1; 0; 1; 1]%Z);
              p2_cmap := "viridis"; p2_title := "title";
              p2_xlim := (0, 1)%Z; p2_ylim := (0, 1)%Z;
              p2_num_points := None; p2_save := false;
              p2_path := "approximation.png" |} in
  let g := NdArray [4; 2] [0; 0; 0; 1; 1; 0; 1; 1]%Z in
  exists e,
    plot_2d stub_env a [] = (Raise e, [EvSolve g (Some VNone)])
    /\ (failure stub_env [] (EvSolve g (Some VNone)) = None ->
        e = Exn "TypeError"
                "'NoneType' object cannot be interpreted as an integer").
Proof.
  intros a g.
  apply (plot_2d_imshow_grid_needs_num_points stub_env a g); reflexivity.
Defined.

(** X9.  In the ['imshow'] mode with a grid of the caller's and
    [num_points = n], the solved values must be exactly [n * n] many: then
    the first call after [solve] is [plt.imshow] on them as an [n] by [n]
    array; otherwise the reshape raises [ValueError] and nothing is
    drawn. *)
Theorem plot_2d_imshow_grid_reshape {F} `{Scalar F} (E : env F)
    (a : plot_2d_args F) g n sol r tr :
  p2_mode a = "imshow" ->
  p2_grid a = Some g ->
  p2_num_points a = Some n ->
  (0 <= n)%Z ->
  model_solve E [] g (Some (p2_fetches a)) = Ok sol ->
  plot_2d E a [] = (r, tr) ->
  (length (data sol) = Z.to_nat (n * n) ->
   exists rest,
     tr = EvSolve g (Some (p2_fetches a))
          :: EvPlt "imshow" [VArr (NdArray [Z.to_nat n; Z.to_nat n] (data sol));
                             VKw "cmap" (VStr (p2_cmap a))]
          :: rest)
  /\ (length (data sol) <> Z.to_nat (n * n) ->
      r = Raise (Exn "ValueError" "cannot reshape array into this shape")
      /\ tr = [EvSolve g (Some (p2_fetches a))]).
Proof.
  intros Hmode Hgrid Hnum Hn Hsol Hrun.
  rewrite (plot_2d_imshow_given_grid_run E a g Hmode Hgrid), Hsol, Hnum in Hrun.
  rewrite (reshape2_square sol n Hn) in Hrun.
  rewrite !bind_assoc_run, lift_bind_run in Hrun.
  split; intros Hlen; destruct (decide _) as [?|?]; try done.
  - unfold do_ in Hrun. rewrite !bind_assoc_run, plt_bind_run in Hrun.
    destruct (plt_call E _ "imshow" _) as [v|err].
    + match type of Hrun with
      | ?m _ = _ =>
          assert (Hlib : emits (fun _ => True) m);
            [unfold savefig, when, do_; emit|]
      end.
      destruct (Hlib _ _ _ Hrun) as (ext & -> & _). by exists ext.
    + injection Hrun as <- <-. by exists [].
  - by injection Hrun as <- <-.
Qed.

Lemma plot_2d_imshow_grid_reshape_witness :
  let g := NdArray [4; 2] [0; 0; 0; 1; 1; 0; 1; 1]%Z in
  let a := {| p2_mode := "imshow"; p2_fetches := VNone; p2_grid := Some g;
              p2_cmap := "viridis"; p2_title := "title";
              p2_xlim := (0, 1)%Z; p2_ylim := (0, 1)%Z;
              p2_num_points := Some 2%Z; p2_save := false;
              p2_path := "approximation.png" |} in
  let sol := NdArray [4] [7; 7; 7; 7]%Z in
  (length (data sol) = Z.to_nat (2 * 2) ->
   exists rest,
     (plot_2d stub_env a []).2
     = EvSolve g (Some VNone)
         :: EvPlt "imshow" [VArr (NdArray [2; 2] (data sol));
                            VKw "cmap" (VStr "viridis")]
         :: rest)
  /\ (length (data sol) <> Z.to_nat (2 * 2) ->
      (plot_2d stub_env a []).1
      = Raise (Exn "ValueError" "cannot reshape array into this shape")
      /\ (plot_2d stub_env a []).2 = [EvSolve g (Some VNone)]).
Proof.
  intros g a sol.
  apply (plot_2d_imshow_grid_reshape stub_env a g 2 sol
           (plot_2d stub_env a []).1 (plot_2d stub_env a []).2);
    try reflexivity; lia.
Defined.

Section Mesh.
Context {F : Type} `{Scalar F}.
Variable E : env F.

Lemma length_axis_samples (lim : F * F) n :
  length (data (axis_samples lim n)) = n.
Proof. unfold axis_samples. cbn [data]. by rewrite length_fmap, length_seq. Qed.

(** The grid and the mesh that the contour and the surface mode build,
    lines 63-67. *)
Lemma contour_grid_value (a : plot_2d_args F) :
  p2_grid a = None ->
  let num := or_default (p2_num_points a)
               (if bool_decide (p2_mode a = "contourf") then 80 else 20) in
  let xs := axis_samples (p2_xlim a) (Z.to_nat num) in
  let ys := axis_samples (p2_ylim a) (Z.to_nat num) in
  (0 <= num)%Z ->
  exists g,
    contour_grid a
    = Ok (g, MeshLocals (Some xs) (Some ys)
                        (Some (meshgrid_xy xs ys).1)
                        (Some (meshgrid_xy xs ys).2))
    /\ rows g = nested_loops [data xs; data ys]
    /\ shape g = [Z.to_nat num ^ 2; 2].
Proof.
  intros Hgrid num xs ys Hn. unfold contour_grid. rewrite Hgrid. fold num.
  unfold np_linspace. rewrite (proj2 (Z.ltb_ge num 0) Hn).
  cbn [mbind result_bind]. fold (axis_samples (p2_xlim a) (Z.to_nat num)).
  fold (axis_samples (p2_ylim a) (Z.to_nat num)). fold xs ys.
  rewrite cart_prod_spec by done. cbn [mbind result_bind].
  eexists. split_and!; [done|by rewrite rows_cart_prod|].
  cbn [shape fmap list_fmap size_of foldr length].
  unfold xs, ys. rewrite !length_axis_samples. f_equal; simpl; lia.
Qed.

(** Every run of the two modes starts with the one call of
    [model.solve]. *)
Lemma plot_2d_mesh_run (a : plot_2d_args F) r tr :
  p2_mode a ∈ ["contourf"; "3d_view"] ->
  p2_grid a = None ->
  (forall k, p2_num_points a = Some k -> (0 <= k)%Z) ->
  plot_2d E a [] = (r, tr) ->
  let n := Z.to_nat (or_default (p2_num_points a)
                       (if bool_decide (p2_mode a = "contourf")
                        then 80 else 20)) in
  let xs := axis_samples (p2_xlim a) n in
  let ys := axis_samples (p2_ylim a) n in
  exists g rest,
    rows g = nested_loops [data xs; data ys]
    /\ shape g = [n ^ 2; 2]
    /\ tr = EvSolve g None :: rest
    /\ solve_calls tr = [(g, None)].
Proof.
  intros Hmode Hgrid Hnum Hrun. cbv zeta.
  assert (Hn : (0 <= or_default (p2_num_points a)
                       (if bool_decide (p2_mode a = "contourf")
                        then 80 else 20))%Z).
  { apply or_default_nonneg; [by destruct (bool_decide _)|done]. }
  destruct (contour_grid_value a Hgrid Hn) as (g & Hg & Hrows & Hshape).
  destruct (mesh_mode_tests _ Hmode) as [H1 H2].
  unfold plot_2d in Hrun. cbv zeta in Hrun. rewrite H1, H2 in Hrun.
  rewrite bind_assoc_run, lift_bind_run, Hg in Hrun.
  rewrite bind_assoc_run, solve_bind_run in Hrun.
  exists g. destruct (model_solve E [] g None) as [sol|e].
  - match type of Hrun with
    | ?m _ = _ =>
        assert (Hlib : emits (fun ev => is_library_call ev = true) m);
          [unfold savefig, when, do_; emit|]
    end.
    destruct (Hlib _ _ _ Hrun) as (ext & -> & Hext).
    exists ext. split_and!; [done|done|done|].
    by rewrite solve_calls_app, (solve_calls_library ext Hext).
  - injection Hrun as <- <-. by exists [].
Qed.

End Mesh.

(** X10.  In the ['contourf'] and ['3d_view'] modes with no grid from the
    caller and a [num_points] that is not negative, the first call of
    [plot_2d] is [model.solve], it is the only call of [model.solve], it
    passes no [fetches], and its grid has [n ** 2] rows and two columns,
    where [n] is [num_points or 80] for ['contourf'] and
    [num_points or 20] for ['3d_view']. *)
Theorem plot_2d_mesh_solves_once {F} `{Scalar F} (E : env F)
    (a : plot_2d_args F) r tr :
  p2_mode a ∈ ["contourf"; "3d_view"] ->
  p2_grid a = None ->
  (forall k, p2_num_points a = Some k -> (0 <= k)%Z) ->
  plot_2d E a [] = (r, tr) ->
  let n := Z.to_nat (or_default (p2_num_points a)
                       (if bool_decide (p2_mode a = "contourf")
                        then 80 else 20)) in
  exists g rest,
    tr = EvSolve g None :: rest
    /\ solve_calls tr = [(g, None)]
    /\ shape g = [n ^ 2; 2]
    /\ length (rows g) = n ^ 2.
Proof.
  intros Hmode Hgrid Hnum Hrun. cbv zeta.
  destruct (plot_2d_mesh_run E a r tr Hmode Hgrid Hnum Hrun)
    as (g & rest & Hrows & Hshape & Htr & Hcalls).
  exists g, rest. split_and!; [done..|].
  rewrite Hrows, length_nested_loops. cbn [fmap list_fmap].
  rewrite !length_axis_samples. simpl. lia.
Qed.

Lemma plot_2d_mesh_solves_once_witness :
  let a := plot_2d_defaults "3d_view" in
  exists g rest,
    (plot_2d stub_env a []).2 = EvSolve g None :: rest
    /\ solve_calls (plot_2d stub_env a []).2 = [(g, None)]
    /\ shape g = [20 ^ 2; 2]
    /\ length (rows g) = 20 ^ 2.
Proof.
  intros a.
  apply (plot_2d_mesh_solves_once stub_env a
           (plot_2d stub_env a []).1 (plot_2d stub_env a []).2).
  - apply list_elem_of_further, list_elem_of_here.
  - reflexivity.
  - discriminate.
  - by destruct (plot_2d stub_env a []).
Defined.

(** X11.  With no grid from the caller, [num_points=0] is the same call
    of [plot_2d] as no [num_points] at all: [num_points or 80] (or 20)
    replaces the zero by the default, in every mode and whatever the
    collaborators do. *)
Theorem plot_2d_zero_num_points {F} `{Scalar F} (E : env F)
    (a : plot_2d_args F) tr :
  p2_grid a = None ->
  p2_num_points a = Some 0%Z ->
  plot_2d E a tr = plot_2d E (without_num_points a) tr.
Proof.
  intros Hgrid Hnum.
  unfold plot_2d, imshow_grid, contour_grid, without_num_points.
  cbn [p2_mode p2_fetches p2_grid p2_cmap p2_title p2_xlim p2_ylim
       p2_num_points p2_save p2_path].
  rewrite Hgrid, Hnum. reflexivity.
Qed.

Lemma plot_2d_zero_num_points_witness :
  let a := {| p2_mode := "3d_view"; p2_fetches := VNone; p2_grid := None;
              p2_cmap := "viridis"; p2_title := "title";
              p2_xlim := (0, 1)%Z; p2_ylim := (0, 1)%Z;
              p2_num_points := Some 0%Z; p2_save := false;
              p2_path := "approximation.png" |} in
  plot_2d stub_env a [] = plot_2d stub_env (without_num_points a) [].
Proof.
  intros a. apply (plot_2d_zero_num_points stub_env a []); reflexivity.
Defined.

End Plot2dMore.

(** ** Saving and showing the figure *)

Module SaveShow.
Import Numpy Plots SRFacts PlotFacts Stubs PlotReadings.

Section Closing.
Context {F : Type} `{Scalar F}.
Variable E : env F.

Lemma ends_with_bind {X Y} suffix (m : M F X) (f : X -> M F Y) :
  (forall x, ends_with suffix (f x)) -> ends_with suffix (m ≫= f).
Proof.
  intros Hf tr0 y tr2. rewrite bind_run.
  destruct (m tr0) as [[x|e] tr1]; [|done]. apply Hf.
Qed.

Lemma ends_with_show : ends_with [show_call] (do_ (plt E "show" [])).
Proof.
  intros tr0 x tr1. unfold do_. rewrite plt_bind_run.
  destruct (plt_call E tr0 "show" []); [|done].
  intros [= _ <-]. by exists tr0.
Qed.

Lemma ends_with_save_show path :
  ends_with [savefig_call path; show_call]
    (savefig E true path;; do_ (plt E "show" [])).
Proof.
  intros tr0 x tr1. unfold savefig, when, do_.
  rewrite !bind_assoc_run, plt_bind_run.
  destruct (plt_call E tr0 "savefig" _); [|done].
  rewrite ret_bind_run, plt_bind_run.
  destruct (plt_call E _ "show" []); [|done].
  intros [= _ <-]. exists tr0. by rewrite <- app_assoc.
Qed.

Lemma ends_with_skip_show path :
  ends_with [show_call] (savefig E false path;; do_ (plt E "show" [])).
Proof.
  unfold savefig, when. intros tr0 x tr1. rewrite ret_bind_run.
  apply ends_with_show.
Qed.

End Closing.

(** Walks to the last statements of a procedure. *)
Ltac closing :=
  repeat first
    [ apply ends_with_show
    | apply ends_with_save_show
    | apply ends_with_skip_show
    | apply ends_with_bind; intros ?
    | match goal with
      | |- ends_with _ (let '(_, _) := ?p in _) => destruct p
      end ].

(** X12.  No procedure writes a file it was not asked to write: every call
    of [plt.savefig] in any run is [plt.savefig(path, dpi=300)] with the
    [path] argument of a call whose [save] argument is true.  In
    particular [plot_loss] never saves. *)
Theorem savefig_only_when_asked {F} `{Scalar F} (E : env F)
    (c : plot_call F) r tr :
  run_plot E c [] = (r, tr) ->
  Forall (fun ev => forall args,
            ev = EvPlt "savefig" args ->
            exists path,
              saving c = Some path
              /\ args = [VStr path; VKw "dpi" (VInt 300)]) tr.
Proof.
  intros Hrun.
  enough (Hm : emits (fun ev => forall args,
                        ev = EvPlt "savefig" args ->
                        exists path,
                          saving c = Some path
                          /\ args = [VStr path; VKw "dpi" (VInt 300)])
                     (run_plot E c)).
  { by destruct (Hm _ _ _ Hrun) as (ext & -> & Hext). }
  clear Hrun.
  destruct c as [loss color|a|a|a|a]; cbn [run_plot saving].
  - unfold plot_loss, do_. emit.
  - unfold plot_pair_1d, savefig, when, do_.
    destruct (p1_save a); emit.
    all: first [ apply emits_solve; done
               | apply emits_plt; intros args [= <-]; by eexists ].
  - unfold plot_2d, savefig, when, do_. cbv zeta.
    destruct (p2_save a); emit.
    all: first [ apply emits_solve; done
               | apply emits_plt; intros args [= <-]; by eexists ].
  - unfold plot_sections_2d, section_2d, forM_, savefig, when, do_.
    destruct (s2_save a); emit.
    all: first [ apply emits_solve; done
               | apply emits_plt; intros args [= <-]; by eexists ].
  - unfold plot_sections_3d, section_3d, forM_, savefig, when, do_.
    cbv zeta.
    destruct (s3_save a); emit.
    all: first [ apply emits_solve; done
               | apply emits_plt; intros args [= <-]; by eexists ].
Qed.

Lemma savefig_only_when_asked_witness :
  let c := PlotSections3d sections_3d_example in
  Forall (fun ev => forall args,
            ev = EvPlt "savefig" args ->
            exists path,
              saving c = Some path
              /\ args = [VStr path; VKw "dpi" (VInt 300)])
         (run_plot stub_env c []).2.
Proof.
  intros c.
  apply (savefig_only_when_asked stub_env c (run_plot stub_env c []).1).
  by destruct (run_plot stub_env c []).
Defined.

(** X13.  A run that returns has shown the figure last: its calls end
    with [plt.show()], and with [plt.savefig(path, dpi=300)] directly
    before it when [save] is true.  This holds for [plot_loss],
    [plot_pair_1d], [plot_sections_2d], [plot_sections_3d], and for [plot_2d]
    in the modes ['contourf'] and ['3d_view']. *)
Theorem returning_run_ends_with_show {F} `{Scalar F} (E : env F)
    (c : plot_call F) tr :
  shows c = true ->
  run_plot E c [] = (Ok tt, tr) ->
  exists pre, tr = pre ++ closing_calls c.
Proof.
  intros Hshows Hrun.
  enough (Hm : ends_with (closing_calls c) (run_plot E c)) by by eapply Hm.
  clear Hrun. unfold closing_calls.
  destruct c as [loss color|a|a|a|a]; cbn [run_plot saving shows] in *.
  - unfold plot_loss. closing.
  - unfold plot_pair_1d. destruct (p1_save a); closing.
  - unfold plot_2d. cbv zeta. rewrite Hshows.
    change (when true (do_ (plt E "show" []))) with (do_ (plt E "show" [])).
    destruct (p2_save a); closing.
  - unfold plot_sections_2d. cbv zeta. destruct (s2_save a); closing.
  - unfold plot_sections_3d. cbv zeta. destruct (s3_save a); closing.
Qed.

Lemma returning_run_ends_with_show_witness :
  let c := PlotSections3d sections_3d_example in
  exists pre, (run_plot stub_env c []).2 = pre ++ closing_calls c.
Proof.
  intros c.
  apply (returning_run_ends_with_show stub_env c (run_plot stub_env c []).2);
    reflexivity.
Defined.

(** X14.  In every mode other than ['contourf'] and ['3d_view'],
    ['imshow'] among them, [plot_2d] never calls [plt.show()]: the figure
    is drawn (and saved when asked) but not shown. *)
Theorem plot_2d_imshow_never_shows {F} `{Scalar F} (E : env F)
    (a : plot_2d_args F) r tr :
  p2_mode a ∉ ["3d_view"; "contourf"] ->
  plot_2d E a [] = (r, tr) ->
  Forall (fun ev => forall args, ev <> EvPlt "show" args) tr.
Proof.
  intros Hmode Hrun.
  enough (Hm : emits (fun ev => forall args, ev <> EvPlt "show" args)
                     (plot_2d E a)).
  { by destruct (Hm _ _ _ Hrun) as (ext & -> & Hext). }
  clear Hrun. unfold plot_2d. cbv zeta.
  rewrite (bool_decide_eq_false_2 (p2_mode a ∈ ["3d_view"; "contourf"])) by done.
  unfold savefig, when, do_. emit.
  all: apply emits_solve; done.
Qed.

Lemma plot_2d_imshow_never_shows_witness :
  let a := plot_2d_defaults "imshow" in
  Forall (fun ev => forall args, ev <> EvPlt "show" args)
         (plot_2d stub_env a []).2.
Proof.
  intros a.
  apply (plot_2d_imshow_never_shows stub_env a (plot_2d stub_env a []).1).
  - rewrite !not_elem_of_cons. split_and!; [done..|]. apply not_elem_of_nil.
  - by destruct (plot_2d stub_env a []).
Defined.

End SaveShow.

(** ** Which collaborator is called first *)

Module CallOrder.
Import Numpy NumpyFacts Plots SRFacts PlotFacts Stubs Plot2d PlotPair1d.
Import PlotReadings.

Section Opening.
Context {F : Type} `{Scalar F}.
Variable E : env F.
Variable P : event F -> Prop.

Lemma opens_with_bind {X Y} (m : M F X) (f : X -> M F Y) :
  opens_with P m ->
  (forall x, emits (fun _ => True) (f x)) ->
  opens_with P (m ≫= f).
Proof.
  intros Hm Hf r tr. rewrite bind_run.
  destruct (m []) as [[x|e] tr1] eqn:Hrun.
  - destruct (Hm _ _ Hrun) as [[_ ?]|(ev & rest & -> & Hev)]; [done|].
    intros Hrun2. destruct (Hf x _ _ _ Hrun2) as (ext & -> & _).
    right. by exists ev, (rest ++ ext).
  - intros [= <- <-]. by apply Hm in Hrun.
Qed.

Lemma opens_with_lift {X Y} (g : result X) (f : X -> M F Y) :
  (forall x, opens_with P (f x)) -> opens_with P (lift g ≫= f).
Proof.
  intros Hf r tr. rewrite lift_bind_run. destruct g as [x|e].
  - apply Hf.
  - intros [= <- <-]. by left.
Qed.

Lemma opens_with_call {X Y} (m : M F X) (f : X -> M F Y) ev :
  (forall tr, (m tr).2 = tr ++ [ev]) ->
  P ev ->
  (forall x, emits (fun _ => True) (f x)) ->
  opens_with P (m ≫= f).
Proof.
  intros Hm Hev Hf r tr. rewrite bind_run. specialize (Hm []).
  destruct (m []) as [[x|e] tr1]; simpl in Hm; subst tr1.
  - intros Hrun. destruct (Hf x _ _ _ Hrun) as (ext & -> & _).
    right. by exists ev, ext.
  - intros [= <- <-]. right. by exists ev, [].
Qed.

End Opening.

(** X15.  In [plot_pair_1d] a [plot_coord] outside of [-k, k), for points
    with [k] columns, is found out only after the model was evaluated: the
    run calls [model.solve] on the points and then raises [IndexError],
    before [solution] is called and before anything is drawn. *)
Theorem plot_pair_1d_bad_plot_coord {F} `{Scalar F} (E : env F)
    (a : pair_1d_args F) points c r k rest :
  pair_1d_points a = Ok points ->
  p1_plot_coord a = Some c ->
  shape points = r :: k :: rest ->
  (c < - Z.of_nat k \/ Z.of_nat k <= c)%Z ->
  exists e,
    plot_pair_1d E a [] = (Raise e, [EvSolve points None])
    /\ (failure E [] (EvSolve points None) = None ->
        e = Exn "IndexError" "index is out of bounds for axis 1").
Proof.
  intros Hp Hc Hshape Hout. unfold plot_pair_1d.
  rewrite lift_bind_run, Hp, solve_bind_run. simpl app.
  destruct (model_solve E [] points None) as [approxs|e] eqn:Hsolve.
  - rewrite lift_bind_run. unfold pair_1d_coord, select_axis1.
    rewrite Hc, Hshape. cbv zeta.
    replace ((0 <=? (if c <? 0 then c + Z.of_nat k else c))
             && ((if c <? 0 then c + Z.of_nat k else c) <? Z.of_nat k))%Z
      with false.
    + by eexists.
    + symmetry. apply andb_false_iff.
      destruct (Z.ltb_spec c 0); [left; apply Z.leb_gt|right; apply Z.ltb_ge]; lia.
  - eexists. split; [done|]. simpl. by rewrite Hsolve.
Qed.

Lemma plot_pair_1d_bad_plot_coord_witness :
  let points := NdArray [3; 2] [0; 5; 1; 6; 2; 7]%Z in
  let a := {| p1_points := Some points; p1_plot_coord := Some 2%Z;
              p1_xlabel := "$t$"; p1_ylabel := "$\hat{u} | u$";
              p1_confidence := None; p1_alpha := 4%Z;
              p1_title := "Solution against approximation";
              p1_loc := 1%Z; p1_grid := true; p1_save := false;
              p1_path := "pair.png" |} in
  exists e,
    plot_pair_1d stub_env a [] = (Raise e, [EvSolve points None])
    /\ (failure stub_env [] (EvSolve points None) = None ->
        e = Exn "IndexError" "index is out of bounds for axis 1").
Proof.
  intros points a.
  apply (plot_pair_1d_bad_plot_coord stub_env a points 2 3 2 []);
    [reflexivity..|]. right. simpl. lia.
Defined.

(** X16.  [plot_pair_1d], and [plot_2d] in its three modes, evaluate the
    model before they touch the plotting library: the first call of every
    run is [model.solve], unless the arguments were rejected before any
    call was made.  So when the model fails, nothing has been drawn. *)
Theorem model_is_called_first {F} `{Scalar F} (E : env F)
    (c : plot_call F) r tr :
  match c with
  | PlotPair1d _ => True
  | Plot2d a => p2_mode a ∈ ["imshow"; "contourf"; "3d_view"]
  | _ => False
  end ->
  run_plot E c [] = (r, tr) ->
  (tr = [] /\ r <> Ok tt)
  \/ (exists p f rest, tr = EvSolve p f :: rest).
Proof.
  intros Hc Hrun.
  enough (Hm : opens_with is_solve (run_plot E c)).
  { destruct (Hm _ _ Hrun) as [[-> Hr]|(ev & rest & -> & p & f & ->)].
    - left. split; [done|]. by intros ->.
    - right. by eauto. }
  clear Hrun. destruct c as [| a | a | |]; try done; cbn [run_plot].
  - unfold plot_pair_1d. apply opens_with_lift. intros points.
    eapply opens_with_call; [done|by eexists _, _|].
    intros approxs. unfold savefig, when, do_. emit.
  - unfold plot_2d. cbv zeta. apply opens_with_bind.
    2:{ intros _. unfold savefig, when, do_. emit. }
    destruct (bool_decide (p2_mode a = "imshow")) eqn:Hi.
    + apply opens_with_lift. intros [g num].
      eapply opens_with_call; [done|by eexists _, _|].
      intros approxs. unfold do_. emit.
    + rewrite bool_decide_eq_true_2.
      2:{ apply bool_decide_eq_false_1 in Hi.
          apply elem_of_cons in Hc as [?|?]; done. }
      apply opens_with_lift. intros [g locals].
      eapply opens_with_call; [done|by eexists _, _|].
      intros sol. unfold do_. emit.
Qed.

Lemma model_is_called_first_witness :
  let c := Plot2d (plot_2d_defaults "contourf") in
  ((run_plot stub_env c []).2 = [] /\ (run_plot stub_env c []).1 <> Ok tt)
  \/ (exists p f rest, (run_plot stub_env c []).2 = EvSolve p f :: rest).
Proof.
  intros c.
  apply (model_is_called_first stub_env c).
  - apply list_elem_of_further, list_elem_of_here.
  - by destruct (run_plot stub_env c []).
Defined.

(** X17.  The section plots create their figure before they evaluate the
    model: the first call of [plot_sections_2d] is always [plt.subplots]
    with the grid size and [figsize=(5 * grid_size[1], 5)], and the first
    call of [plot_sections_3d] is [plt.figure] with
    [figsize=(grid_size[0] * 7, grid_size[1] * 3)], unless [np.linspace]
    rejected [num_points] before any call was made. *)
Theorem sections_create_figure_first {F} `{Scalar F} (E : env F) :
  (forall (a : sections_2d_args F) r tr,
     plot_sections_2d E a [] = (r, tr) ->
     exists rest,
       tr = EvPlt "subplots"
              [VInt (s2_grid_size a).1; VInt (s2_grid_size a).2;
               VKw "figsize" (VPair (VInt (5 * (s2_grid_size a).2)) (VInt 5))]
            :: rest)
  /\ (forall (a : sections_3d_args F) r tr,
        plot_sections_3d E a [] = (r, tr) ->
        (tr = [] /\ r <> Ok tt /\ (sections_3d_num_points a < 0)%Z)
        \/ (exists rest,
              tr = EvPlt "figure"
                     [VKw "figsize" (VPair (VInt ((s3_grid_size a).1 * 7))
                                           (VInt ((s3_grid_size a).2 * 3)))]
                   :: rest)).
Proof.
  split.
  - intros a r tr Hrun.
    assert (Hm : opens_with
                   (fun ev => ev = EvPlt "subplots"
                      [VInt (s2_grid_size a).1; VInt (s2_grid_size a).2;
                       VKw "figsize" (VPair (VInt (5 * (s2_grid_size a).2))
                                            (VInt 5))])
                   (plot_sections_2d E a)).
    { unfold plot_sections_2d. cbv zeta. apply opens_with_lift. intros points.
      eapply opens_with_call; [done|done|].
      intros v. unfold section_2d, forM_, savefig, when, do_. emit.
      all: apply emits_solve; done. }
    destruct (Hm _ _ Hrun) as [[-> _]|(ev & rest & -> & ->)]; [|by eauto].
    unfold plot_sections_2d in Hrun.
    destruct (Sections.sections_2d_points_ok a) as [points Hp].
    rewrite lift_bind_run, Hp in Hrun. cbv zeta in Hrun.
    rewrite plt_bind_run in Hrun. destruct (plt_call E [] _ _).
    + match type of Hrun with
      | ?m _ = _ =>
          assert (Hext : emits (fun _ => True) m);
            [unfold section_2d, forM_, savefig, when, do_; emit;
             apply emits_solve; done|]
      end.
      by destruct (Hext _ _ _ Hrun) as (ext & ? & _).
    + done.
  - intros a r tr Hrun.
    assert (Hm : opens_with
                   (fun ev => ev = EvPlt "figure"
                      [VKw "figsize" (VPair (VInt ((s3_grid_size a).1 * 7))
                                            (VInt ((s3_grid_size a).2 * 3)))])
                   (plot_sections_3d E a)).
    { unfold plot_sections_3d. cbv zeta. apply opens_with_lift.
      intros [[[xs ys] grid] [xs_ ys_]].
      eapply opens_with_call; [done|done|].
      intros v. unfold section_3d, forM_, savefig, when, do_. cbv zeta. emit.
      all: apply emits_solve; done. }
    destruct (Hm _ _ Hrun) as [[-> Hr]|(ev & rest & -> & ->)]; [|by eauto].
    left. split_and!; [done|by intros ->|].
    unfold plot_sections_3d in Hrun. rewrite lift_bind_run in Hrun.
    destruct (sections_3d_grid a) as [[[[xs ys] grid] [xs_ ys_]]|e] eqn:Hg.
    + cbv zeta in Hrun. rewrite plt_bind_run in Hrun.
      destruct (plt_call E [] _ _); [|done].
      match type of Hrun with
      | ?m _ = _ =>
          assert (Hext : emits (fun _ => True) m);
            [unfold section_3d, forM_, savefig, when, do_; cbv zeta; emit;
             apply emits_solve; done|]
      end.
      by destruct (Hext _ _ _ Hrun) as (ext & ? & _).
    + unfold sections_3d_grid, np_linspace in Hg. cbv zeta in Hg.
      destruct (Z.ltb_spec (sections_3d_num_points a) 0); [done|].
      cbn [mbind result_bind] in Hg. by rewrite cart_prod_spec in Hg.
Qed.

Lemma sections_create_figure_first_witness :
  (exists rest,
     (plot_sections_2d stub_env sections_2d_example []).2
     = EvPlt "subplots"
         [VInt 2; VInt 3; VKw "figsize" (VPair (VInt (5 * 3)) (VInt 5))]
       :: rest)
  /\ (((plot_sections_3d stub_env sections_3d_example []).2 = []
       /\ Ok tt <> Ok tt
       /\ (sections_3d_num_points sections_3d_example < 0)%Z)
      \/ (exists rest,
            (plot_sections_3d stub_env sections_3d_example []).2
            = EvPlt "figure"
                [VKw "figsize" (VPair (VInt (1 * 7)) (VInt (2 * 3)))]
              :: rest)).
Proof.
  destruct (sections_create_figure_first stub_env) as [H2 H3]. split.
  - apply (H2 sections_2d_example (Ok tt)). reflexivity.
  - apply (H3 sections_3d_example (Ok tt)). reflexivity.
Defined.

End CallOrder.

(** ** Where the solved values are drawn *)

Module Mesh.
Import Numpy NumpyFacts Plots SRFacts PlotFacts Stubs Plot2d Sections.
Import PlotReadings CartProdMore Plot2dMore.

Section Cells.
Context {A : Type}.

(** The two arrays of [np.meshgrid(xs, ys)], by index. *)
Lemma meshgrid_xy_lookup (xs ys : ndarray A) i j :
  i < length (data ys) -> j < length (data xs) ->
  data (meshgrid_xy xs ys).1 !! (i * length (data xs) + j) = data xs !! j
  /\ data (meshgrid_xy xs ys).2 !! (i * length (data xs) + j) = data ys !! i.
Proof.
  intros Hi Hj. unfold meshgrid_xy. cbn [fst snd data]. split.
  - rewrite lookup_tile by nia. f_equal.
    rewrite Nat.add_comm, Nat.Div0.mod_add. by apply Nat.mod_small.
  - rewrite lookup_stretch by lia. f_equal.
    rewrite Nat.add_comm, Nat.div_add by lia.
    rewrite Nat.div_small by done. done.
Qed.

End Cells.

Section History.
Context {F : Type} `{Scalar F}.
Variable E : env F.
Variable R : trace F -> event F -> Prop.

Lemma every_call_ret {X} (x : X) tr0 : every_call_from R (mret x) tr0.
Proof.
  intros r tr1 [= <- <-]. exists []. split; [by rewrite app_nil_r|].
  intros pre ev post Heq. by destruct pre.
Qed.

Lemma every_call_lift_bind {X Y} (g : result X) (f : X -> M F Y) tr0 :
  (forall x, g = Ok x -> every_call_from R (f x) tr0) ->
  every_call_from R (lift g ≫= f) tr0.
Proof.
  intros Hf r tr1. rewrite lift_bind_run. destruct g as [x|e].
  - by apply Hf.
  - intros [= <- <-]. exists []. split; [by rewrite app_nil_r|].
    intros pre ev post Heq. by destruct pre.
Qed.

(** One call, then the rest from the longer record. *)
Lemma every_call_step {X Y} (m : M F X) (f : X -> M F Y) ev tr0 :
  (m tr0).2 = tr0 ++ [ev] ->
  R tr0 ev ->
  (forall x, (m tr0).1 = Ok x -> every_call_from R (f x) (tr0 ++ [ev])) ->
  every_call_from R (m ≫= f) tr0.
Proof.
  intros Hm Hev Hf r tr2. rewrite bind_run.
  destruct (m tr0) as [[x|e] tr1]; simpl in Hm; subst tr1.
  - intros Hrun. destruct (Hf x eq_refl _ _ Hrun) as (ext & -> & Hext).
    exists (ev :: ext). split; [by rewrite <- app_assoc|].
    intros [|ev' pre] ev0 post Heq; simplify_eq/=.
    + by rewrite app_nil_r.
    + specialize (Hext pre ev0 post eq_refl).
      by rewrite <- app_assoc in Hext.
  - intros [= <- <-]. exists [ev]. split; [done|].
    intros [|ev' pre] ev0 post Heq; simplify_eq/=.
    + by rewrite app_nil_r.
    + by destruct pre.
Qed.

(** Calls that all satisfy [R] whatever came before. *)
Lemma every_call_emits {X} (Q : event F -> Prop) (m : M F X) tr0 :
  emits Q m -> (forall pre ev, Q ev -> R pre ev) -> every_call_from R m tr0.
Proof.
  intros Hm HQ r tr1 Hrun. destruct (Hm _ _ _ Hrun) as (ext & -> & Hext).
  exists ext. split; [done|]. intros pre ev post ->. apply HQ.
  rewrite Forall_app, Forall_cons in Hext. tauto.
Qed.

Lemma every_call_bind {X Y} (m : M F X) (f : X -> M F Y) tr0 :
  every_call_from R m tr0 ->
  (forall x tr1, every_call_from R (f x) tr1) ->
  every_call_from R (m ≫= f) tr0.
Proof.
  intros Hm Hf r tr2. rewrite bind_run.
  destruct (m tr0) as [[x|e] tr1] eqn:Hrun.
  - intros Hrun2. destruct (Hm _ _ Hrun) as (ext1 & -> & H1).
    destruct (Hf x _ _ _ Hrun2) as (ext2 & -> & H2).
    exists (ext1 ++ ext2). split; [by rewrite app_assoc|].
    intros pre ev post Heq.
    apply app_eq_app in Heq as [l [[-> Heq]|[-> Heq]]].
    + destruct l as [|ev' l]; simplify_eq/=.
      * specialize (H2 [] ev post eq_refl). by rewrite !app_nil_r in H2.
      * apply (H1 pre ev' l eq_refl).
    + rewrite app_assoc. by apply (H2 l ev post).
  - intros [= <- <-]. by apply (Hm _ _ Hrun).
Qed.

Lemma every_call_mapM {X Y} (f : X -> M F Y) (l : list X) tr0 :
  (forall x tr, every_call_from R (f x) tr) ->
  every_call_from R (mapM f l) tr0.
Proof.
  intros Hf. revert tr0. induction l as [|x l IH]; intros tr0; cbn [mapM].
  - apply every_call_ret.
  - apply every_call_bind; [done|]. intros y tr1.
    apply every_call_bind; [done|]. intros ys tr2. apply every_call_ret.
Qed.

End History.

Section Transposed.
Context {F : Type} `{Scalar F}.
Variable E : env F.

Lemma axis_samples_lookup (lim : F * F) n i :
  i < n -> data (axis_samples lim n) !! i = Some (flin lim.1 lim.2 n i).
Proof.
  intros Hi. unfold axis_samples. cbn [data].
  by rewrite list_lookup_fmap, lookup_seq_lt.
Qed.

(** Cell [i * n + j] of the grid is the point [(x_i, y_j)]; cell
    [i * n + j] of the mesh is the point [(x_j, y_i)]. *)
Lemma mesh_cells (limx limy : F * F) n i j :
  i < n -> j < n ->
  let xs := axis_samples limx n in
  let ys := axis_samples limy n in
  nested_loops [data xs; data ys] !! (i * n + j)
  = Some [flin limx.1 limx.2 n i; flin limy.1 limy.2 n j]
  /\ data (meshgrid_xy xs ys).1 !! (i * n + j) = Some (flin limx.1 limx.2 n j)
  /\ data (meshgrid_xy xs ys).2 !! (i * n + j) = Some (flin limy.1 limy.2 n i).
Proof.
  intros Hi Hj xs ys. subst xs ys.
  pose proof (length_axis_samples limx n) as Hlx.
  pose proof (length_axis_samples limy n) as Hly.
  split.
  - rewrite <- Hly at 1. apply nested_loops_pair_lookup;
      by apply axis_samples_lookup.
  - destruct (meshgrid_xy_lookup (axis_samples limx n) (axis_samples limy n) i j)
      as [H1 H2]; [by rewrite Hly|by rewrite Hlx|].
    rewrite Hlx in H1, H2. rewrite H1, H2.
    split; by apply axis_samples_lookup.
Qed.

Lemma surface_args_plt_contourf (args : list (value F)) :
  surface_args (EvPlt "contourf" args) = Some args.
Proof. reflexivity. Qed.

Lemma surface_args_contourf (ax : value F) (args : list (value F)) :
  surface_args (EvMethod ax "contourf" args) = Some args.
Proof. reflexivity. Qed.

Lemma surface_args_plot_surface (ax : value F) (args : list (value F)) :
  surface_args (EvMethod ax "plot_surface" args) = Some args.
Proof. reflexivity. Qed.

Lemma reshape2_len (sol zs_ : ndarray F) n :
  reshape2 sol (Z.of_nat n) (Z.of_nat n) = Ok zs_ ->
  zs_ = NdArray [n; n] (data sol).
Proof.
  rewrite reshape2_square by lia. destruct (decide _); [|done].
  rewrite !Nat2Z.id. by intros [= <-].
Qed.

End Transposed.

(** Calls that draw no surface. *)
Ltac quiet :=
  let Hs := fresh "Hs" in intros ? Hs; cbv in Hs; discriminate Hs.

(** X18.  In the ['contourf'] and ['3d_view'] modes of [plot_2d] (no grid
    from the caller, [num_points] not negative) the solved values are
    drawn over the transposed mesh.  The call that draws the surface gets
    the two arrays of [np.meshgrid(xs, ys)] and, as an [n] by [n] array, the
    values that the one call of [model.solve] returned.  Entry
    [i * n + j] of the grid that was solved on is the point
    [(xs[i], ys[j])], whereas entry [i * n + j] of the mesh is the point
    [(xs[j], ys[i])]: the value for [(xs[i], ys[j])] is drawn at
    [(xs[j], ys[i])]. *)
Theorem plot_2d_mesh_is_transposed {F} `{Scalar F} (E : env F)
    (a : plot_2d_args F) r tr :
  p2_mode a ∈ ["contourf"; "3d_view"] ->
  p2_grid a = None ->
  (forall k, p2_num_points a = Some k -> (0 <= k)%Z) ->
  plot_2d E a [] = (r, tr) ->
  let n := Z.to_nat (or_default (p2_num_points a)
                       (if bool_decide (p2_mode a = "contourf")
                        then 80 else 20)) in
  let x := flin (p2_xlim a).1 (p2_xlim a).2 n in
  let y := flin (p2_ylim a).1 (p2_ylim a).2 n in
  exists xs_ ys_,
    (forall pre ev post,
       tr = pre ++ ev :: post -> drawn_after_solve E xs_ ys_ n pre ev)
    /\ forall i j,
         i < n -> j < n ->
         Forall (fun c => rows c.1 !! (i * n + j) = Some [x i; y j])
                (solve_calls tr)
         /\ data xs_ !! (i * n + j) = Some (x j)
         /\ data ys_ !! (i * n + j) = Some (y i).
Proof.
  intros Hmode Hgrid Hnum Hrun n x y.
  set (xs := axis_samples (p2_xlim a) n).
  set (ys := axis_samples (p2_ylim a) n).
  exists (meshgrid_xy xs ys).1, (meshgrid_xy xs ys).2. split.
  - assert (Hn : (0 <= or_default (p2_num_points a)
                         (if bool_decide (p2_mode a = "contourf")
                          then 80 else 20))%Z).
    { apply or_default_nonneg; [by destruct (bool_decide _)|done]. }
    destruct (contour_grid_value a Hgrid Hn) as (g & Hg & _). fold n xs ys in Hg.
    destruct (mesh_mode_tests _ Hmode) as [H1 H2].
    enough (Hm : every_call_from
                   (drawn_after_solve E (meshgrid_xy xs ys).1
                                        (meshgrid_xy xs ys).2 n)
                   (plot_2d E a) []).
    { destruct (Hm _ _ Hrun) as (ext & Hext & Hall). simpl in Hext.
      subst ext. intros pre ev post Htr. by apply (Hall pre ev post). }
    clear Hrun. unfold plot_2d. cbv zeta. rewrite H1, H2.
    apply every_call_bind.
    2:{ intros _ tr1.
        apply every_call_emits with (Q := fun ev => surface_args ev = None).
        - unfold savefig, when, do_. emit.
        - intros pre ev HQ args. congruence. }
    apply every_call_lift_bind. intros [g' locals] Hg'.
    rewrite Hg in Hg'. injection Hg' as <- <-.
    eapply every_call_step; [reflexivity|quiet|]. intros sol Hsol.
    cbn in Hsol.
    apply every_call_lift_bind. intros xs' [= <-].
    apply every_call_lift_bind. intros nx [= <-].
    apply every_call_lift_bind. intros ys' [= <-].
    apply every_call_lift_bind. intros ny [= <-].
    apply every_call_lift_bind. intros zs_ ->%reshape2_len.
    destruct (bool_decide (p2_mode a = "contourf")).
    + apply every_call_lift_bind. intros xs_' [= <-].
      apply every_call_lift_bind. intros ys_' [= <-].
      unfold do_. eapply every_call_step; [reflexivity| |].
      * intros args Hs. rewrite surface_args_plt_contourf in Hs.
        injection Hs as <-. exists [], g, sol, []. by eexists.
      * intros _ _. apply every_call_ret.
    + eapply every_call_step; [reflexivity|quiet|]. intros fig _.
      eapply every_call_step; [reflexivity|quiet|]. intros axis _.
      apply every_call_lift_bind. intros xs_' [= <-].
      apply every_call_lift_bind. intros ys_' [= <-].
      eapply every_call_step; [reflexivity| |].
      * intros args Hs. rewrite surface_args_plot_surface in Hs.
        injection Hs as <-.
        exists [], g, sol,
          [EvPlt "figure" []; EvMethod fig "gca" [VKw "projection" (VStr "3d")]],
          (surface_kwargs (p2_cmap a)).
        by rewrite <- !app_assoc.
      * intros _ _.
        apply every_call_emits with (Q := fun ev => surface_args ev = None).
        -- unfold do_. emit.
        -- intros pre ev HQ args. congruence.
  - intros i j Hi Hj.
    destruct (plot_2d_mesh_run E a r tr Hmode Hgrid Hnum Hrun)
      as (g & rest & Hrows & _ & _ & ->).
    fold n xs ys in Hrows.
    destruct (mesh_cells (p2_xlim a) (p2_ylim a) n i j Hi Hj)
      as (Hcell & Hx & Hy).
    split_and!; [|done..].
    repeat constructor. simpl. by rewrite Hrows.
Qed.

Lemma plot_2d_mesh_is_transposed_witness :
  let a := {| p2_mode := "3d_view"; p2_fetches := VNone; p2_grid := None;
              p2_cmap := "viridis"; p2_title := "title";
              p2_xlim := (0, 1)%Z; p2_ylim := (5, 9)%Z;
              p2_num_points := Some 2%Z; p2_save := false;
              p2_path := "approximation.png" |} in
  let tr := (plot_2d stub_env a []).2 in
  let x := flin 0%Z 1%Z 2 in
  let y := flin 5%Z 9%Z 2 in
  exists xs_ ys_,
    (forall pre ev post,
       tr = pre ++ ev :: post -> drawn_after_solve stub_env xs_ ys_ 2 pre ev)
    /\ forall i j,
         i < 2 -> j < 2 ->
         Forall (fun c => rows c.1 !! (i * 2 + j) = Some [x i; y j])
                (solve_calls tr)
         /\ data xs_ !! (i * 2 + j) = Some (x j)
         /\ data ys_ !! (i * 2 + j) = Some (y i).
Proof.
  intros a tr x y.
  apply (plot_2d_mesh_is_transposed stub_env a (plot_2d stub_env a []).1 tr).
  - apply list_elem_of_further, list_elem_of_here.
  - reflexivity.
  - intros k [= <-]. lia.
  - reflexivity.
Defined.

Section Sections3d.
Context {F : Type} `{Scalar F}.
Variable E : env F.

(** The samples, the grid and the mesh of [plot_sections_3d],
    lines 145-148. *)
Lemma sections_3d_grid_value (a : sections_3d_args F) :
  let num := sections_3d_num_points a in
  let xs := axis_samples (s3_xlim a) (Z.to_nat num) in
  let ys := axis_samples (s3_ylim a) (Z.to_nat num) in
  (0 <= num)%Z ->
  exists grid,
    sections_3d_grid a = Ok (xs, ys, grid, meshgrid_xy xs ys)
    /\ rows grid = nested_loops [data xs; data ys]
    /\ shape grid = [Z.to_nat num ^ 2; 2]
    /\ well_shaped grid.
Proof.
  intros num xs ys Hn. unfold sections_3d_grid. cbv zeta. fold num.
  unfold np_linspace. rewrite (proj2 (Z.ltb_ge num 0) Hn).
  cbn [mbind result_bind]. fold (axis_samples (s3_xlim a) (Z.to_nat num)).
  fold (axis_samples (s3_ylim a) (Z.to_nat num)). fold xs ys.
  rewrite cart_prod_spec by done. cbn [mbind result_bind].
  pose proof (length_join_uniform _ 2
                (nested_loops_row_length [data xs; data ys])) as Hlen.
  rewrite length_nested_loops in Hlen.
  eexists. split_and!; [done|by rewrite rows_cart_prod| |].
  - cbn [shape fmap list_fmap size_of foldr length].
    unfold xs, ys. rewrite !length_axis_samples. f_equal; simpl; lia.
  - unfold well_shaped. cbn [data shape]. rewrite Hlen. simpl. lia.
Qed.

Lemma sections_3d_grid_negative (a : sections_3d_args F) :
  (sections_3d_num_points a < 0)%Z ->
  sections_3d_grid a
  = Raise (Exn "ValueError" "Number of samples must be non-negative").
Proof.
  intros Hn. unfold sections_3d_grid, np_linspace. cbv zeta.
  by rewrite (proj2 (Z.ltb_lt _ 0) Hn).
Qed.

(** One round of [plot_sections_3d], lines 153-173: what is drawn. *)
Lemma section_3d_draws (a : sections_3d_args F) fig grid it tr0 :
  let n := Z.to_nat (sections_3d_num_points a) in
  let xs := axis_samples (s3_xlim a) n in
  let ys := axis_samples (s3_ylim a) n in
  every_call_from
    (drawn_after_solve E (meshgrid_xy xs ys).1 (meshgrid_xy xs ys).2 n)
    (section_3d E a fig xs ys grid (meshgrid_xy xs ys).1 (meshgrid_xy xs ys).2
                it)
    tr0.
Proof.
  intros n xs ys. destruct it as [i t]. unfold section_3d. cbv zeta.
  apply every_call_lift_bind. intros grid_ _.
  assert (Hrest : forall ax tr,
    every_call_from
      (drawn_after_solve E (meshgrid_xy xs ys).1 (meshgrid_xy xs ys).2 n)
      (solve E grid_ None ≫= fun sol =>
         nx ← lift (len xs);
         ny ← lift (len ys);
         zs_ ← lift (reshape2 sol (Z.of_nat nx) (Z.of_nat ny));
         (if bool_decide (s3_mode a = "imshow") then
            do_ (method E ax "imshow" [VArr zs_; VKw "cmap" (VStr (s3_cmap a))])
          else if bool_decide (s3_mode a = "contourf") then
            do_ (method E ax "contourf"
                   [VArr (meshgrid_xy xs ys).1; VArr (meshgrid_xy xs ys).2;
                    VArr zs_; VKw "cmap" (VStr (s3_cmap a))])
          else if bool_decide (s3_mode a = "3d_view") then
            method E ax "plot_surface"
              ([VArr (meshgrid_xy xs ys).1; VArr (meshgrid_xy xs ys).2;
                VArr zs_] ++ surface_kwargs (s3_cmap a));;
            do_ (method E ax "set_zlim"
                   [VFloat (s3_zlim a).1; VFloat (s3_zlim a).2])
          else mret tt);;
         method E ax "set_title" [VStr (time_title t); VKw "size" (VInt 17)];;
         method E ax "set_xlabel" [VStr "$x$"; VKw "fontdict" (VFontsize 14)];;
         do_ (method E ax "set_ylabel"
                [VStr "$y$"; VKw "fontdict" (VFontsize 14)]))
      tr).
  { intros ax tr.
    eapply every_call_step; [reflexivity|quiet|]. intros sol Hsol.
    cbn in Hsol.
    apply every_call_lift_bind. intros nx [= <-].
    apply every_call_lift_bind. intros ny [= <-].
    apply every_call_lift_bind. intros zs_ ->%reshape2_len.
    apply every_call_bind.
    2:{ intros _ tr1.
        apply every_call_emits with (Q := fun ev => surface_args ev = None).
        - unfold do_. emit.
        - intros pre ev HQ args. congruence. }
    destruct (bool_decide (s3_mode a = "imshow")).
    { unfold do_. eapply every_call_step; [reflexivity|quiet|].
      intros _ _. apply every_call_ret. }
    destruct (bool_decide (s3_mode a = "contourf")).
    { unfold do_. eapply every_call_step; [reflexivity| |].
      - intros args Hs. rewrite surface_args_contourf in Hs.
        injection Hs as <-. exists tr, grid_, sol, []. by eexists.
      - intros _ _. apply every_call_ret. }
    destruct (bool_decide (s3_mode a = "3d_view")); [|apply every_call_ret].
    eapply every_call_step; [reflexivity| |].
    - intros args Hs. rewrite surface_args_plot_surface in Hs.
      injection Hs as <-.
      exists tr, grid_, sol, [], (surface_kwargs (s3_cmap a)). done.
    - intros _ _. unfold do_.
      eapply every_call_step; [reflexivity|quiet|].
      intros _ _. apply every_call_ret. }
  destruct (bool_decide (s3_mode a = "3d_view")).
  all: eapply every_call_step; [reflexivity|quiet|]; intros ax _; apply Hrest.
Qed.

End Sections3d.

(** X19.  [plot_sections_3d] draws its sections over the transposed mesh
    too.  Every call of [ax.contourf] and of [ax.plot_surface] gets the two
    arrays of [np.meshgrid(xs, ys)] and, as an [n] by [n] array, the values
    that the latest call of [model.solve] returned.  Row
    [i * n + j] of the points of every call of [model.solve] is
    [(xs[i], ys[j], t)], whereas entry [i * n + j] of the mesh is the point
    [(xs[j], ys[i])]. *)
Theorem plot_sections_3d_mesh_is_transposed {F} `{Scalar F} (E : env F)
    (a : sections_3d_args F) r tr :
  plot_sections_3d E a [] = (r, tr) ->
  let n := Z.to_nat (sections_3d_num_points a) in
  let x := flin (s3_xlim a).1 (s3_xlim a).2 n in
  let y := flin (s3_ylim a).1 (s3_ylim a).2 n in
  exists xs_ ys_,
    (forall pre ev post,
       tr = pre ++ ev :: post -> drawn_after_solve E xs_ ys_ n pre ev)
    /\ forall i j,
         i < n -> j < n ->
         Forall (fun c => exists t,
                   rows c.1 !! (i * n + j) = Some [x i; y j; t])
                (solve_calls tr)
         /\ data xs_ !! (i * n + j) = Some (x j)
         /\ data ys_ !! (i * n + j) = Some (y i).
Proof.
  intros Hrun n x y.
  set (xs := axis_samples (s3_xlim a) n).
  set (ys := axis_samples (s3_ylim a) n).
  exists (meshgrid_xy xs ys).1, (meshgrid_xy xs ys).2.
  destruct (Z.ltb_spec (sections_3d_num_points a) 0) as [Hneg|Hn].
  { unfold plot_sections_3d in Hrun.
    rewrite lift_bind_run, sections_3d_grid_negative in Hrun by done.
    injection Hrun as <- <-. split.
    - intros pre ev post Htr. by destruct pre.
    - intros i j Hi. unfold n in Hi. lia. }
  destruct (sections_3d_grid_value a Hn) as (grid & Hg & Hrows & Hshape & Hw).
  fold n xs ys in Hg, Hrows, Hshape. split.
  - enough (Hm : every_call_from
                   (drawn_after_solve E (meshgrid_xy xs ys).1
                                        (meshgrid_xy xs ys).2 n)
                   (plot_sections_3d E a) []).
    { destruct (Hm _ _ Hrun) as (ext & Hext & Hall). simpl in Hext.
      subst ext. intros pre ev post Htr. by apply (Hall pre ev post). }
    clear Hrun. unfold plot_sections_3d. cbv zeta.
    apply every_call_lift_bind. intros [[[xs' ys'] grid'] [xs_' ys_']] Hg'.
    rewrite Hg in Hg'. injection Hg' as <- <- <- <- <-.
    eapply every_call_step; [reflexivity|quiet|]. intros fig _.
    apply every_call_bind.
    + unfold forM_. apply every_call_bind.
      * apply every_call_mapM. intros it tr0. apply section_3d_draws.
      * intros _ tr1. apply every_call_ret.
    + intros _ tr1.
      apply every_call_emits with (Q := fun ev => surface_args ev = None).
      * unfold savefig, when, do_. emit.
      * intros pre ev HQ args. congruence.
  - intros i j Hi Hj.
    destruct (mesh_cells (s3_xlim a) (s3_ylim a) n i j Hi Hj)
      as (Hcell & Hx & Hy). fold xs ys in Hcell, Hx, Hy.
    split_and!; [|done..].
    destruct (plot_sections_3d_solve_calls E a xs ys grid _ r tr Hg Hrun)
      as [Hall _].
    apply Forall_lookup. intros k c Hk.
    destruct (Forall2_lookup_r _ _ _ _ _ Hall Hk) as ([i' t] & _ & Hpt & _).
    simpl in Hpt. rewrite section_points_3d_time_section in Hpt.
    exists t.
    rewrite (time_section_rows grid c.1 _ _ t Hshape Hw Hpt).
    by rewrite list_lookup_fmap, Hrows, Hcell.
Qed.

Lemma plot_sections_3d_mesh_is_transposed_witness :
  let a := {| s3_timestamps := [0; 5]%Z; s3_grid_size := (1, 2)%Z;
              s3_mode := "contourf"; s3_fetches := VNone;
              s3_xlim := (0, 1)%Z; s3_ylim := (5, 9)%Z; s3_zlim := (0, 1)%Z;
              s3_num_points := Some 2%Z; s3_title := "title";
              s3_cmap := "viridis"; s3_save := false;
              s3_path := "sections.png" |} in
  let tr := (plot_sections_3d stub_env a []).2 in
  let x := flin 0%Z 1%Z 2 in
  let y := flin 5%Z 9%Z 2 in
  exists xs_ ys_,
    (forall pre ev post,
       tr = pre ++ ev :: post -> drawn_after_solve stub_env xs_ ys_ 2 pre ev)
    /\ forall i j,
         i < 2 -> j < 2 ->
         Forall (fun c => exists t,
                   rows c.1 !! (i * 2 + j) = Some [x i; y j; t])
                (solve_calls tr)
         /\ data xs_ !! (i * 2 + j) = Some (x j)
         /\ data ys_ !! (i * 2 + j) = Some (y i).
Proof.
  intros a tr x y.
  apply (plot_sections_3d_mesh_is_transposed stub_env a
           (plot_sections_3d stub_env a []).1 tr).
  reflexivity.
Defined.

End Mesh.

(** ** More about the section plots *)

Module SectionsMore.
Import Numpy NumpyFacts Plots SRFacts PlotFacts Stubs Sections.
Import PlotReadings Plot2dMore Mesh.

Section Shapes.
Context {F : Type} `{Scalar F}.


(** Line 115 accepts the points only if they hold one value per row. *)
Lemma section_points_2d_rejects (points : ndarray F) n k t :
  shape points = [n; k] -> well_shaped points -> 0 < n -> k <> 1 ->
  section_points_2d points t
  = Raise (Exn "ValueError"
             "all the input array dimensions except for the concatenation axis must match exactly").
Proof.
  intros Hs Hw Hn Hk. unfold well_shaped in Hw. rewrite Hs in Hw.
  simpl in Hw. unfold section_points_2d, reshape_rows.
  cbn [Nat.eqb]. rewrite Nat.mod_1_r, Nat.div_1_r. cbn [Nat.eqb].
  cbn [mbind result_bind]. unfold shape0. rewrite Hs.
  cbn [mbind result_bind]. unfold with_time. rewrite scale_ones.
  unfold concatenate_axis1. cbn [shape full_col data].
  destruct (Nat.eqb_spec (length (data points)) n); [nia|done].
Qed.

End Shapes.



(** X21.  [plot_sections_2d] takes points with one value per row only.
    For points of shape [(n, k)] with [n > 0] and [k <> 1] and at least one
    timestamp, the figure is created and then the very first round raises,
    before any call of [model.solve]: the concatenation on line 115 pairs
    [n * k] rows with [n] rows and raises [ValueError]. *)
Theorem plot_sections_2d_needs_one_column {F} `{Scalar F} (E : env F)
    (a : sections_2d_args F) points n k :
  s2_points a = Some points ->
  shape points = [n; k] ->
  well_shaped points ->
  0 < n ->
  k <> 1 ->
  s2_timestamps a <> [] ->
  let subplots :=
    EvPlt "subplots"
      [VInt (s2_grid_size a).1; VInt (s2_grid_size a).2;
       VKw "figsize" (VPair (VInt (5 * (s2_grid_size a).2)) (VInt 5))] in
  exists e,
    plot_sections_2d E a [] = (Raise e, [subplots])
    /\ (forall fig axes,
          plt_call E [] "subplots"
            [VInt (s2_grid_size a).1; VInt (s2_grid_size a).2;
             VKw "figsize" (VPair (VInt (5 * (s2_grid_size a).2)) (VInt 5))]
          = Ok (VPair fig axes) ->
          e = Exn "ValueError"
                "all the input array dimensions except for the concatenation axis must match exactly").
Proof.
  intros Hp Hs Hw Hn Hk Hts. cbv zeta.
  unfold plot_sections_2d, sections_2d_points. rewrite Hp. cbv zeta.
  rewrite lift_bind_run, plt_bind_run. simpl app.
  destruct (plt_call E [] "subplots" _) as [v|e]; [|by eexists].
  rewrite lift_bind_run.
  destruct (unpack2 v) as [[fig axes]|e] eqn:Hv.
  2:{ eexists. split; [done|]. by intros fig axes [= ->]. }
  destruct (s2_timestamps a) as [|t ts]; [done|].
  unfold forM_, enumerate. cbn [length seq zip zip_with mapM].
  rewrite !bind_run. unfold section_2d at 1.
  rewrite lift_bind_run.
  rewrite (section_points_2d_rejects points n k t Hs Hw Hn Hk).
  eexists. split; [done|]. intros fig' axes' [= ->]. done.
Qed.

Lemma plot_sections_2d_needs_one_column_witness :
  let a := {| s2_timestamps := [0; 2]%Z; s2_grid_size := (1, 2)%Z;
              s2_points := Some (NdArray [2; 2] [0; 0; 1; 1]%Z);
              s2_fetches := VNone;
              s2_xlim := (0, 1)%Z; s2_ylim := (0, 1)%Z;
              s2_title := "title"; s2_save := false;
              s2_path := "sections.png" |} in
  let subplots :=
    EvPlt "subplots"
      [VInt 1; VInt 2; VKw "figsize" (VPair (VInt (5 * 2)) (VInt 5))] in
  exists e,
    plot_sections_2d stub_env a [] = (Raise e, [subplots])
    /\ (forall fig axes,
          plt_call stub_env [] "subplots"
            [VInt 1; VInt 2; VKw "figsize" (VPair (VInt (5 * 2)) (VInt 5))]
          = Ok (VPair fig axes) ->
          e = Exn "ValueError"
                "all the input array dimensions except for the concatenation axis must match exactly").
Proof.
  intros a subplots.
  apply (plot_sections_2d_needs_one_column stub_env a
           (NdArray [2; 2] [0; 0; 1; 1]%Z) 2 2);
    try reflexivity; try lia; discriminate.
Defined.

(** X22.  In a mode other than ['imshow'], ['contourf'] and ['3d_view'],
    [plot_sections_3d] draws no data: the only methods it calls on the figure and its axes are [add_subplot],
    [set_title], [set_xlabel], [set_ylabel] and [suptitle] (the model is
    still evaluated for every timestamp). *)
Theorem plot_sections_3d_unknown_mode_draws_nothing {F} `{Scalar F}
    (E : env F) (a : sections_3d_args F) r tr :
  s3_mode a ∉ ["imshow"; "contourf"; "3d_view"] ->
  plot_sections_3d E a [] = (r, tr) ->
  Forall (fun ev => forall obj meth args,
            ev = EvMethod obj meth args ->
            meth ∈ ["add_subplot"; "set_title"; "set_xlabel"; "set_ylabel";
                    "suptitle"]) tr.
Proof.
  intros Hmode Hrun.
  apply not_elem_of_cons in Hmode as [H1 Hmode].
  apply not_elem_of_cons in Hmode as [H2 Hmode].
  apply not_elem_of_cons in Hmode as [H3 _].
  enough (Hm : emits (fun ev => forall obj meth args,
                        ev = EvMethod obj meth args ->
                        meth ∈ ["add_subplot"; "set_title"; "set_xlabel";
                                "set_ylabel"; "suptitle"])
                     (plot_sections_3d E a)).
  { by destruct (Hm _ _ _ Hrun) as (ext & -> & Hext). }
  clear Hrun. unfold plot_sections_3d, section_3d, forM_, savefig, when, do_.
  cbv zeta.
  rewrite (bool_decide_eq_false_2 (s3_mode a = "imshow")) by done.
  rewrite (bool_decide_eq_false_2 (s3_mode a = "contourf")) by done.
  rewrite (bool_decide_eq_false_2 (s3_mode a = "3d_view")) by done.
  emit.
  all: first [ apply emits_solve; done
             | apply emits_method; intros ? ? ? [= <- <- <-];
               repeat first [ apply list_elem_of_here
                            | apply list_elem_of_further ] ].
Qed.

Lemma plot_sections_3d_unknown_mode_draws_nothing_witness :
  let a := {| s3_timestamps := [0; 5]%Z; s3_grid_size := (1, 2)%Z;
              s3_mode := "surface"; s3_fetches := VNone;
              s3_xlim := (0, 1)%Z; s3_ylim := (0, 1)%Z; s3_zlim := (0, 1)%Z;
              s3_num_points := Some 2%Z; s3_title := "title";
              s3_cmap := "viridis"; s3_save := false;
              s3_path := "sections.png" |} in
  Forall (fun ev => forall obj meth args,
            ev = EvMethod obj meth args ->
            meth ∈ ["add_subplot"; "set_title"; "set_xlabel"; "set_ylabel";
                    "suptitle"])
         (plot_sections_3d stub_env a []).2.
Proof.
  intros a.
  apply (plot_sections_3d_unknown_mode_draws_nothing stub_env a
           (plot_sections_3d stub_env a []).1).
  - rewrite !not_elem_of_cons. split_and!; [done..|]. apply not_elem_of_nil.
  - by destruct (plot_sections_3d stub_env a []).
Defined.

End SectionsMore.

(** ** Where the sections are placed *)

Module Layout.
Import Numpy NumpyFacts Plots SRFacts PlotFacts Stubs Sections.
Import PlotReadings.

Section Projects.
Context {F : Type} `{Scalar F} {Y : Type}.
Variable E : env F.
Variable proj : event F -> option Y.

Lemma projects_ret {X} (x : X) : projects proj [] (mret x).
Proof.
  intros tr0 r tr1 [= <- <-]. exists []. by rewrite app_nil_r.
Qed.

Lemma projects_lift {X} (g : result X) : projects proj [] (lift g).
Proof.
  intros tr0 r tr1 [= <- <-]. exists []. by rewrite app_nil_r.
Qed.

(** A computation that makes one call, whether that call returns or
    raises. *)
Lemma projects_call {X} (m : M F X) ev y :
  (forall tr, (m tr).2 = tr ++ [ev]) ->
  proj ev = Some y ->
  projects proj [y] m.
Proof.
  intros Hm Hev tr0 r tr1 Hrun. specialize (Hm tr0). rewrite Hrun in Hm.
  simpl in Hm. subst tr1. exists [y]. split; [|done].
  rewrite omap_app. simpl. by rewrite Hev.
Qed.

Lemma projects_other {X} (m : M F X) ev :
  (forall tr, (m tr).2 = tr ++ [ev]) ->
  proj ev = None ->
  projects proj [] m.
Proof.
  intros Hm Hev tr0 r tr1 Hrun. specialize (Hm tr0). rewrite Hrun in Hm.
  simpl in Hm. subst tr1. exists []. split; [|done].
  rewrite omap_app. simpl. by rewrite Hev.
Qed.

Lemma projects_bind {X Z} ys1 ys2 (m : M F X) (f : X -> M F Z) :
  projects proj ys1 m ->
  (forall x, projects proj ys2 (f x)) ->
  projects proj (ys1 ++ ys2) (m ≫= f).
Proof.
  intros Hm Hf tr0 r tr2. rewrite bind_run.
  destruct (m tr0) as [[x|e] tr1] eqn:Hrun.
  - intros Hrun2.
    destruct (Hm _ _ _ Hrun) as (l1 & H1 & _ & Hall1).
    destruct (Hf x _ _ _ Hrun2) as (l2 & H2 & Hpre2 & Hall2).
    rewrite (Hall1 eq_refl) in H1. exists (ys1 ++ l2). split_and!.
    + by rewrite H2, H1, app_assoc.
    + by apply prefix_app.
    + intros Hok. by rewrite Hall2.
  - intros [= <- <-].
    destruct (Hm _ _ _ Hrun) as (l1 & H1 & Hpre1 & _).
    exists l1. split_and!; [done| |done]. by apply prefix_app_r.
Qed.

Lemma projects_bind_nil {X Z} (m : M F X) (f : X -> M F Z) :
  projects proj [] m ->
  (forall x, projects proj [] (f x)) ->
  projects proj [] (m ≫= f).
Proof. intros Hm Hf. by apply (projects_bind [] []). Qed.

Lemma projects_mapM {X Z} (expected : X -> list Y) (f : X -> M F Z)
    (l : list X) :
  (forall x, projects proj (expected x) (f x)) ->
  projects proj (l ≫= expected) (mapM f l).
Proof.
  intros Hf. induction l as [|x l IH]; cbn [mapM].
  - apply projects_ret.
  - rewrite bind_cons.
    apply projects_bind; [done|]. intros y.
    rewrite <- (app_nil_r (l ≫= expected)).
    apply projects_bind; [done|]. intros ys. apply projects_ret.
Qed.

Lemma projects_lift_bind {X Z} ys (g : result X) (f : X -> M F Z) :
  (forall x, g = Ok x -> projects proj ys (f x)) ->
  projects proj ys (lift g ≫= f).
Proof.
  intros Hf tr0 r tr1. rewrite lift_bind_run. destruct g as [x|e].
  - by apply Hf.
  - intros [= <- <-]. exists []. rewrite app_nil_r.
    split_and!; [done|apply prefix_nil|done].
Qed.

Lemma projects_proper {X} ys ys' (m : M F X) :
  projects proj ys m -> ys = ys' -> projects proj ys' m.
Proof. by intros Hm <-. Qed.

End Projects.

(** Walks through a procedure and collects the selected calls. *)
Ltac project :=
  repeat first
    [ apply projects_ret
    | apply projects_lift
    | eapply projects_call; [done|reflexivity]
    | eapply projects_other; [done|reflexivity]
    | eapply projects_bind; [|intros ?]
    | apply projects_bind_nil; [|intros ?]
    | match goal with
      | |- projects _ _ (let '(_, _) := ?p in _) => destruct p
      | |- projects _ _ (if ?b then _ else _) => destruct b
      | |- projects _ _ (match ?x with _ => _ end) => destruct x
      end ].

Section Rounds.
Context {F : Type} `{Scalar F}.
Variable E : env F.

Lemma bind_enumerate {X Y} (g : nat -> list Y) (l : list X) :
  enumerate l ≫= (fun it => g it.1) = seq 0 (length l) ≫= g.
Proof.
  unfold enumerate. generalize 0.
  induction l as [|x l IH]; intros k; [done|].
  cbn [length seq zip zip_with]. rewrite !bind_cons. f_equal. apply IH.
Qed.

(** One round of [plot_sections_2d]: three times the same subscript. *)
Lemma section_2d_layout (a : sections_2d_args F) axes points it :
  projects (method_args "__getitem__") (replicate 3 (axes_index a it.1))
    (section_2d E a axes points it).
Proof.
  destruct it as [i t]. unfold section_2d.
  apply projects_lift_bind. intros points_ _.
  apply projects_lift_bind. intros [wx wy] Hdiv.
  unfold divmod in Hdiv. destruct (_ =? _)%Z; [done|].
  injection Hdiv as <- <-.
  eapply projects_proper; [unfold do_; project|reflexivity].
Qed.

(** One round of [plot_sections_3d]: one new canvas. *)
Lemma section_3d_layout (a : sections_3d_args F) fig xs ys grid xs_ ys_ it :
  projects (method_args "add_subplot") [subplot_args a it.1]
    (section_3d E a fig xs ys grid xs_ ys_ it).
Proof.
  destruct it as [i t]. unfold section_3d, subplot_args. cbv zeta.
  destruct (bool_decide (s3_mode a = "3d_view")); cbn iota.
  all: eapply projects_proper; [unfold do_; project|reflexivity].
Qed.

End Rounds.

(** X23.  The sections are placed in reading order.  In
    [plot_sections_2d] the calls [axes[wx, wy]] are, for the timestamps in
    order, three times [axes[i // ncols, i % ncols]] for the [i]-th
    timestamp, where [ncols] is [grid_size[1]].  In [plot_sections_3d] the
    calls of [fig.add_subplot] are
    [fig.add_subplot(grid_size[0], grid_size[1], i + 1)] for the [i]-th
    timestamp, with [projection='3d'] in the mode ['3d_view'] only.  A run
    that returns has made all of these calls, a run that raises the first
    few of them. *)
Theorem sections_layout {F} `{Scalar F} (E : env F) :
  (forall (a : sections_2d_args F) r tr,
     plot_sections_2d E a [] = (r, tr) ->
     let expected :=
       i ← seq 0 (length (s2_timestamps a)); replicate 3 (axes_index a i) in
     omap (method_args "__getitem__") tr `prefix_of` expected
     /\ (r = Ok tt -> omap (method_args "__getitem__") tr = expected))
  /\ (forall (a : sections_3d_args F) r tr,
        plot_sections_3d E a [] = (r, tr) ->
        let expected :=
          i ← seq 0 (length (s3_timestamps a)); [subplot_args a i] in
        omap (method_args "add_subplot") tr `prefix_of` expected
        /\ (r = Ok tt -> omap (method_args "add_subplot") tr = expected)).
Proof.
  split.
  - intros a r tr Hrun expected.
    enough (Hm : projects (method_args "__getitem__") expected
                   (plot_sections_2d E a)).
    { destruct (Hm _ _ _ Hrun) as (ys & -> & Hpre & Hall). simpl.
      split; [done|]. intros ->. by apply Hall. }
    clear Hrun. unfold expected.
    rewrite <- (bind_enumerate (fun i => replicate 3 (axes_index a i))).
    unfold plot_sections_2d. cbv zeta.
    apply projects_lift_bind. intros points _.
    eapply projects_proper.
    + eapply projects_bind; [project|]. intros v.
      apply projects_lift_bind. intros [fig axes] _.
      eapply projects_bind.
      * unfold forM_. eapply projects_bind; [|intros ?; apply projects_ret].
        apply projects_mapM with
          (expected := fun it => replicate 3 (axes_index a it.1)).
        intros it. apply section_2d_layout.
      * intros _. unfold savefig, when, do_. project.
    + simpl. by rewrite !app_nil_r.
  - intros a r tr Hrun expected.
    enough (Hm : projects (method_args "add_subplot") expected
                   (plot_sections_3d E a)).
    { destruct (Hm _ _ _ Hrun) as (ys & -> & Hpre & Hall). simpl.
      split; [done|]. intros ->. by apply Hall. }
    clear Hrun. unfold expected.
    rewrite <- (bind_enumerate (fun i => [subplot_args a i])).
    unfold plot_sections_3d. cbv zeta.
    apply projects_lift_bind. intros [[[xs ys] grid] [xs_ ys_]] _.
    eapply projects_proper.
    + eapply projects_bind; [project|]. intros fig.
      eapply projects_bind.
      * unfold forM_. eapply projects_bind; [|intros ?; apply projects_ret].
        apply projects_mapM with
          (expected := fun it => [subplot_args a it.1]).
        intros it. apply section_3d_layout.
      * intros _. unfold savefig, when, do_. project.
    + simpl. by rewrite !app_nil_r.
Qed.

Lemma sections_layout_witness :
  omap (method_args "__getitem__")
       (plot_sections_2d stub_env sections_2d_example []).2
  = (i ← seq 0 3; replicate 3 (axes_index sections_2d_example i))
  /\ omap (method_args "add_subplot")
          (plot_sections_3d stub_env sections_3d_example []).2
     = (i ← seq 0 2; [subplot_args sections_3d_example i]).
Proof.
  destruct (sections_layout stub_env) as [H2 H3]. split.
  - apply (H2 sections_2d_example (Ok tt)
              (plot_sections_2d stub_env sections_2d_example []).2);
      reflexivity.
  - apply (H3 sections_3d_example (Ok tt)
              (plot_sections_3d stub_env sections_3d_example []).2);
      reflexivity.
Defined.

End Layout.

(** ** The model at work on small inputs *)

Module Examples.
Import Numpy NumpyHeap Plots Stubs.

Example meshgrid_ij_2_3 :
  data <$> meshgrid_ij [[1; 2]; [10; 20; 30]]%Z
  = [[1; 1; 1; 2; 2; 2]; [10; 20; 30; 10; 20; 30]]%Z.
Proof. reflexivity. Qed.

Example stack_2_2 :
  np_stack_last [NdArray [2] [1; 2]%Z; NdArray [2] [10; 20]%Z]
  = Ok (NdArray [2; 2] [1; 10; 2; 20]%Z).
Proof. reflexivity. Qed.

Example cart_prod_three_axes :
  rows <$> cart_prod [[1; 2]; [10; 20]; [100; 200]]%Z
  = Ok [[1; 10; 100]; [1; 10; 200]; [1; 20; 100]; [1; 20; 200];
        [2; 10; 100]; [2; 10; 200]; [2; 20; 100]; [2; 20; 200]]%Z.
Proof. reflexivity. Qed.

Example cart_prod_no_input :
  cart_prod (A:=Z) []
  = Raise (Exn "ValueError" "need at least one array to stack").
Proof. reflexivity. Qed.

Example meshgrid_xy_2_3 :
  meshgrid_xy (NdArray [2] [1; 2]%Z) (NdArray [3] [10; 20; 30]%Z)
  = (NdArray [3; 2] [1; 2; 1; 2; 1; 2]%Z,
     NdArray [3; 2] [10; 10; 20; 20; 30; 30]%Z).
Proof. reflexivity. Qed.

Example time_section_2_2 :
  rows <$> time_section (NdArray [2; 2] [0; 1; 2; 3]%Z) 9%Z
  = Ok [[0; 1; 9]; [2; 3; 9]]%Z.
Proof. reflexivity. Qed.

Example select_last_column :
  select_axis1 (NdArray [2; 3] [0; 1; 2; 3; 4; 5]%Z) (-1)
  = Ok (NdArray [2] [2; 5]%Z).
Proof. reflexivity. Qed.

Example reshape2_mismatch :
  is_ok (reshape2 (NdArray [6] [0; 1; 2; 3; 4; 5]%Z) 4 4) = false.
Proof. reflexivity. Qed.

(** The default call [plot_2d(model)]: one [solve] on 6400 points, then the
    image, the title and the colour bar; nothing is saved or shown. *)
Example plot_2d_default_calls :
  let run := plot_2d stub_env (plot_2d_defaults "imshow") [] in
  run.1 = Ok tt
  /\ call_name <$> run.2 = ["solve"; "imshow"; "title"; "colorbar"]
  /\ (fun c => length (rows c.1)) <$> solve_calls run.2 = [80 * 80].
Proof. vm_compute. done. Qed.

(** The contour mode and the surface mode on their default grids. *)
Example plot_2d_contourf_calls :
  let run := plot_2d stub_env (plot_2d_defaults "contourf") [] in
  run.1 = Ok tt
  /\ call_name <$> run.2 = ["solve"; "contourf"; "title"; "colorbar"; "show"]
  /\ (fun c => length (rows c.1)) <$> solve_calls run.2 = [80 * 80].
Proof. vm_compute. done. Qed.

Example plot_2d_3d_view_calls :
  let run := plot_2d stub_env (plot_2d_defaults "3d_view") [] in
  run.1 = Ok tt
  /\ call_name <$> run.2
     = ["solve"; "figure"; "gca"; "plot_surface"; "set_title"; "set_xlabel";
        "set_ylabel"; "show"]
  /\ (fun c => length (rows c.1)) <$> solve_calls run.2 = [20 * 20].
Proof. vm_compute. done. Qed.

(** The section plots on the small examples. *)
Example plot_sections_2d_calls :
  call_name <$> (plot_sections_2d stub_env sections_2d_example []).2
  = ["subplots"]
    ++ mjoin (replicate 3 ["__getitem__"; "solve"; "plot"; "__getitem__";
                           "set_ylim"; "__getitem__"; "set_title"])
    ++ ["tight_layout"; "suptitle"; "subplots_adjust"; "show"].
Proof. vm_compute. done. Qed.

Example plot_sections_3d_calls :
  call_name <$> (plot_sections_3d stub_env sections_3d_example []).2
  = ["figure"]
    ++ mjoin (replicate 2 ["add_subplot"; "solve"; "imshow"; "set_title";
                           "set_xlabel"; "set_ylabel"])
    ++ ["suptitle"; "savefig"; "show"].
Proof. vm_compute. done. Qed.

(** A negative [num_points] stops [plot_2d] before the model is called. *)
Example plot_2d_negative_num_points :
  plot_2d stub_env
    {| p2_mode := "imshow"; p2_fetches := VNone; p2_grid := None;
       p2_cmap := "viridis"; p2_title := "title";
       p2_xlim := (0, 1)%Z; p2_ylim := (0, 1)%Z;
       p2_num_points := Some (-3)%Z; p2_save := false;
       p2_path := "approximation.png" |} []
  = (Raise (Exn "ValueError" "Number of samples must be non-negative"), []).
Proof. reflexivity. Qed.

(** Seven timestamps on a grid whose axes lookup fails for the seventh:
    six calls of [solve], then the exception of the lookup. *)
Example plot_sections_2d_too_many :
  let E := {| model_solve _ points _ := Ok (constant_answer points);
              solution_fn _ points := Ok (constant_answer points);
              plt_call _ fn _ := Ok (stub_plt fn);
              method_call _ _ meth args :=
                match args with
                | [VInt 2; VInt 0] =>
                    if bool_decide (meth = "__getitem__")
                    then Raise (Exn "IndexError" "index 2 is out of bounds")
                    else Ok (VObj 3)
                | _ => Ok (VObj 3)
                end |} in
  let run := plot_sections_2d E
               {| s2_timestamps := [0; 1; 2; 3; 4; 5; 6]%Z;
                  s2_grid_size := (2, 3)%Z;
                  s2_points := Some (NdArray [2; 1] [0; 1]%Z);
                  s2_fetches := VNone; s2_xlim := (0, 1)%Z;
                  s2_ylim := (0, 3)%Z; s2_title := "title";
                  s2_save := false; s2_path := "sections.png" |} [] in
  run.1 = Raise (Exn "IndexError" "index 2 is out of bounds")
  /\ length (solve_calls run.2) = 6.
Proof. vm_compute. done. Qed.

End Examples.
